(** * GDACS API client ([gdacs/api.py]): a shallow embedding and its properties

    The client is a thin wrapper around five HTTP read operations.  The
    embedding follows the Python source function by function:

    - Python values that the code inspects are modelled by small inductive
      types ([option] for a value that may be [None], [JSON] for what
      [res.json()] returns);
    - an exception is a value of type [Exc]; a computation that may raise
      returns a [Result];
    - the network is an explicit log of the requests handed to
      [requests.get], threaded through a state-and-error monad [M]; the
      server is a function of the history and the request;
    - the [@cached(TTLCache(...))] decorator is a combinator [cached] over
      an explicit cache value and explicit timer readings.

    A Python [str] is modelled by [string]: a sequence of characters whose
    code points are below 256. *)

From Stdlib Require Import String Ascii List ZArith Bool Lia.
Import ListNotations.
Open Scope string_scope.
Open Scope Z_scope.
Open Scope list_scope.


(** ** Exceptions and results *)

(** The exception classes that the code raises or lets through. *)
Inductive ExcClass : Type :=
| ValueErrorC
| GDACSAPIErrorC
| TypeErrorC
| KeyErrorC
| JSONDecodeErrorC
| ValidationErrorC
| ConnectionErrorC.

(** An exception object.  [ValueError] and [GDACSAPIError] are raised by the
    code with a message; the others come from the interpreter or from a
    collaborator and carry no modelled message.

    Modelled from the spec: the class [GDACSAPIError] is declared in
    [gdacs/utils.py], which is not among the sources.  It is the library's
    own error class, the "upstream error" of the spec, and a class of its
    own next to the built-in [ValueError], the "caller-input error". *)
Inductive Exc : Type :=
| ValueError (msg : string)
| GDACSAPIError (msg : string)
| TypeError
| KeyError
| JSONDecodeError
| ValidationError
| ConnectionError.

Definition exc_class (e : Exc) : ExcClass :=
  match e with
  | ValueError _ => ValueErrorC
  | GDACSAPIError _ => GDACSAPIErrorC
  | TypeError => TypeErrorC
  | KeyError => KeyErrorC
  | JSONDecodeError => JSONDecodeErrorC
  | ValidationError => ValidationErrorC
  | ConnectionError => ConnectionErrorC
  end.

Definition exc_msg (e : Exc) : option string :=
  match e with
  | ValueError m | GDACSAPIError m => Some m
  | _ => None
  end.

Inductive Result (A : Type) : Type :=
| Ok (a : A)
| Raise (e : Exc).
Arguments Ok {A} a.
Arguments Raise {A} e.

Definition rbind {A B : Type} (r : Result A) (k : A -> Result B) : Result B :=
  match r with
  | Ok a => k a
  | Raise e => Raise e
  end.

Definition is_ok {A : Type} (r : Result A) : bool :=
  match r with Ok _ => true | Raise _ => false end.

(** The class of the exception a result raises, if it raises. *)
Definition raised_class {A : Type} (r : Result A) : option ExcClass :=
  match r with Ok _ => None | Raise e => Some (exc_class e) end.

(** ** Strings *)

Definition ascii_code (c : ascii) : N := N_of_ascii c.

(** [str.isspace] on the code points below 256. *)
Definition py_isspace (c : ascii) : bool :=
  let n := ascii_code c in
  ((9 <=? n) && (n <=? 13))%N || ((28 <=? n) && (n <=? 32))%N
  || (n =? 133)%N || (n =? 160)%N.

Definition is_empty (s : string) : bool :=
  match s with EmptyString => true | String _ _ => false end.

Fixpoint lstrip (s : string) : string :=
  match s with
  | EmptyString => EmptyString
  | String c s' => if py_isspace c then lstrip s' else s
  end.

Fixpoint rstrip (s : string) : string :=
  match s with
  | EmptyString => EmptyString
  | String c s' =>
      let r := rstrip s' in
      if py_isspace c && is_empty r then EmptyString else String c r
  end.

(** [s.strip()] *)
Definition strip (s : string) : string := rstrip (lstrip s).

(** [s.split(sep)] for a one-character separator. *)
Fixpoint split (sep : ascii) (s : string) : list string :=
  match s with
  | EmptyString => [EmptyString]
  | String c s' =>
      if Ascii.eqb c sep then EmptyString :: split sep s'
      else match split sep s' with
           | [] => [String c EmptyString]
           | p :: ps => String c p :: ps
           end
  end.

(** [s.replace(a, b)] for one-character [a] and [b]. *)
Fixpoint replace (a b : ascii) (s : string) : string :=
  match s with
  | EmptyString => EmptyString
  | String c s' => String (if Ascii.eqb c a then b else c) (replace a b s')
  end.

Definition startswith (s : string) (c : ascii) : bool :=
  match s with
  | EmptyString => false
  | String c' _ => Ascii.eqb c' c
  end.

Fixpoint endswith (s : string) (c : ascii) : bool :=
  match s with
  | EmptyString => false
  | String c' EmptyString => Ascii.eqb c' c
  | String _ s' => endswith s' c
  end.

Fixpoint contains (c : ascii) (s : string) : bool :=
  match s with
  | EmptyString => false
  | String c' s' => Ascii.eqb c' c || contains c s'
  end.

Definition slash : ascii := "/"%char.
Definition backslash : ascii := "\"%char.
Definition comma : ascii := ","%char.

(** [str(x)] inside an f-string, for a value that is a [str] or [None]. *)
Definition py_str (x : option string) : string :=
  match x with
  | None => "None"
  | Some s => s
  end.

(** Truthiness of a value that is a [str] or [None]. *)
Definition truthy (x : option string) : bool :=
  match x with
  | None => false
  | Some s => negb (is_empty s)
  end.

Definition opt_string_eqb (x y : option string) : bool :=
  match x, y with
  | None, None => true
  | Some a, Some b => String.eqb a b
  | _, _ => false
  end.

(** [x in l] for a list of values that are each a [str] or [None]. *)
Definition py_in (x : option string) (l : list (option string)) : bool :=
  existsb (opt_string_eqb x) l.

(** ** JSON values, as [res.json()] returns them *)

#[warnings="-register-all"]
Inductive JSON : Type :=
| JNull
| JBool (b : bool)
| JInt (n : Z)
| JReal (literal : string)
| JStr (s : string)
| JArr (items : list JSON)
| JObj (members : list (string * JSON)).

Fixpoint assoc {A : Type} (k : string) (m : list (string * A)) : option A :=
  match m with
  | [] => None
  | (k', v) :: m' => if String.eqb k' k then Some v else assoc k m'
  end.

(** [v[key]] with a string key: a [dict] is looked up (KeyError when the key
    is absent); every other JSON value refuses a string subscript with a
    TypeError. *)
Definition getitem (v : JSON) (key : string) : Result JSON :=
  match v with
  | JObj m =>
      match assoc key m with
      | Some x => Ok x
      | None => Raise KeyError
      end
  | _ => Raise TypeError
  end.

Fixpoint chars (s : string) : list JSON :=
  match s with
  | EmptyString => []
  | String c s' => JStr (String c EmptyString) :: chars s'
  end.

(** [for x in v]: a list yields its items, a dict its keys, a string its
    characters; the other JSON values are not iterable. *)
Definition py_iter (v : JSON) : Result (list JSON) :=
  match v with
  | JArr l => Ok l
  | JObj m => Ok (map (fun kv => JStr (fst kv)) m)
  | JStr s => Ok (chars s)
  | _ => Raise TypeError
  end.

(** [[x for x in l if cond(x)]] where [cond] may raise: the items are visited
    in order and the first exception aborts the comprehension. *)
Fixpoint filter_raising {A : Type} (cond : A -> Result bool) (l : list A)
  : Result (list A) :=
  match l with
  | [] => Ok []
  | x :: l' =>
      rbind (cond x) (fun keep =>
      rbind (filter_raising cond l') (fun rest =>
      Ok (if keep then x :: rest else rest)))
  end.

(** [l[:limit]]: [None] keeps everything, a non-negative [k] keeps the first
    [k] items, a negative [k] drops the last [-k] items. *)
Definition slice_to {A : Type} (l : list A) (limit : option Z) : list A :=
  match limit with
  | None => l
  | Some k =>
      if 0 <=? k then firstn (Z.to_nat k) l
      else firstn (Z.to_nat (Z.of_nat (length l) + k)) l
  end.

(** [json.loads(json.dumps(v))] on values that came out of [res.json()]:
    a deep copy. *)
Definition json_loads_dumps (v : list JSON) : list JSON := v.

(** Modelled from the spec: [gdacs/schemas.py] is not among the sources.  The
    feature collection is "an ordered sequence of feature records (each an
    opaque mapping of properties/geometry)"; the constructor
    [GeoJSON(features=...)] accepts a list and refuses anything else. *)
Record GeoJSON : Type := mkGeoJSON { features : list JSON }.

(** [GeoJSON(features=v)] *)
Definition GeoJSON_init (v : JSON) : Result GeoJSON :=
  match v with
  | JArr l => Ok (mkGeoJSON l)
  | _ => Raise ValidationError
  end.

(** ** The network *)

(** A query-parameter value: a [str] or an [int]. *)
Inductive PyVal : Type :=
| VStr (s : string)
| VInt (n : Z).

(** What is handed to [requests.get]: the URL and the [params] dict, in
    insertion order; a value may be [None].  [requests.get(url)] without
    [params] is the request with no parameters. *)
Record Request : Type := mkRequest {
  req_url : string;
  req_params : list (string * option PyVal)
}.

(** The part of a response the code looks at.  [resp_json = None] stands for
    a body on which [res.json()] raises. *)
Record Response : Type := mkResponse {
  status_code : Z;
  resp_json : option JSON
}.

(** The server answers a request, given the requests made before; [None]
    means that no response arrives and [requests.get] raises. *)
Definition Server : Type := list Request -> Request -> option Response.

(** Computations that may raise and may issue requests. *)
Definition M (A : Type) : Type :=
  Server -> list Request -> Result A * list Request.

Definition ret {A : Type} (a : A) : M A := fun _ log => (Ok a, log).

Definition raise {A : Type} (e : Exc) : M A := fun _ log => (Raise e, log).

Definition bind {A B : Type} (m : M A) (k : A -> M B) : M B :=
  fun srv log =>
    match m srv log with
    | (Ok a, log') => k a srv log'
    | (Raise e, log') => (Raise e, log')
    end.

Definition lift {A : Type} (r : Result A) : M A := fun _ log => (r, log).

Declare Scope gdacs_scope.
Delimit Scope gdacs_scope with gdacs.
Notation "x <- c ;; k" := (bind c (fun x => k))
  (at level 61, c at next level, right associativity) : gdacs_scope.
Notation "'check' b 'else_raise' e ;; k" :=
  (if b then k else raise e)
  (at level 61, b at next level, e at next level, right associativity)
  : gdacs_scope.
Open Scope gdacs_scope.

Definition requests_get (url : string) (params : list (string * option PyVal))
  : M Response :=
  fun srv log =>
    let r := mkRequest url params in
    match srv log r with
    | Some resp => (Ok resp, log ++ [r])
    | None => (Raise ConnectionError, log ++ [r])
    end.

(** [res.json()] *)
Definition res_json (res : Response) : Result JSON :=
  match resp_json res with
  | Some v => Ok v
  | None => Raise JSONDecodeError
  end.

(** The requests a computation issues when started with log [log]. *)
Definition result_of {A : Type} (m : M A) (srv : Server) (log : list Request)
  : Result A := fst (m srv log).

Definition log_after {A : Type} (m : M A) (srv : Server) (log : list Request)
  : list Request := snd (m srv log).

(** Number of calls of [requests.get] made by one run. *)
Definition network_calls {A : Type} (m : M A) (srv : Server)
  (log : list Request) : nat :=
  (length (log_after m srv log) - length log)%nat.

(** ** Constants of [gdacs/api.py] *)

Definition CACHE_TTL : Z := 300.
Definition EVENT_TYPES : list (option string) :=
  [None; Some "TC"; Some "EQ"; Some "FL"; Some "VO"; Some "DR"; Some "WF"].
Definition DATA_FORMATS : list (option string) :=
  [None; Some "xml"; Some "geojson"; Some "shp"].
Definition ALERT_LEVELS : list (option string) :=
  [None; Some "green"; Some "orange"; Some "red"].
Definition BASE_URL : string := "https://www.gdacs.org/datareport/resources".
Definition API_BASE_URL : string := "https://www.gdacs.org/gdacsapi".
Definition LATEST_EVENTS_URL : string :=
  (API_BASE_URL ++ "/api/events/geteventlist/latest")%string.
Definition LATEST_EVENTS_URL_4APP : string :=
  (API_BASE_URL ++ "/api/events/geteventlist/EVENTS4APP")%string.
Definition EVENTS_BY_AREA_URL : string :=
  (API_BASE_URL ++ "/api/events/geteventlist/eventsbyarea")%string.
Definition EVENTS_DATA_URL : string :=
  (API_BASE_URL ++ "/api/events/geteventdata")%string.

Definition MSG_INVALID_EVENT_TYPE : string :=
  "API Error: Used an invalid `event_type` parameter in request.".
Definition MSG_INVALID_DATA_FORMAT : string :=
  "API Error: Used an invalid `data_format` parameter in request.".
Definition MSG_RSS_UNREACHABLE : string :=
  "API Error: GDACS RSS feed can not be reached.".
Definition MSG_API_UNREACHABLE : string :=
  "API Error: GDACS API can not be reached.".
Definition MSG_EVENT_NOT_FOUND : string :=
  "API Error: Event ID not found.".

(** ** [latest_events_4app] *)

(** [event['properties']['eventtype']] *)
Definition event_type_of (event : JSON) : Result JSON :=
  rbind (getitem event "properties") (fun props =>
  getitem props "eventtype").

(** [event_type in [None, event['properties']['eventtype']]]: the list is
    built first, so both subscripts are evaluated whatever [event_type] is. *)
Definition event_matches (event_type : option string) (event : JSON)
  : Result bool :=
  rbind (event_type_of event) (fun et =>
  Ok (match event_type with
      | None => true
      | Some s => match et with
                  | JStr s' => String.eqb s s'
                  | _ => false
                  end
      end)).

Definition latest_events_4app (event_type : option string) (limit : option Z)
  : M GeoJSON :=
  check (py_in event_type EVENT_TYPES)
    else_raise (GDACSAPIError MSG_INVALID_EVENT_TYPE) ;;
  res <- requests_get LATEST_EVENTS_URL_4APP [] ;;
  check (status_code res =? 200)
    else_raise (GDACSAPIError MSG_RSS_UNREACHABLE) ;;
  body <- lift (res_json res) ;;
  feats <- lift (getitem body "features") ;;
  items <- lift (py_iter feats) ;;
  events <- lift (filter_raising (event_matches event_type) items) ;;
  lift (GeoJSON_init (JArr (json_loads_dumps (slice_to events limit)))).

(** ** [latest_events] *)

(** The loop [for et in event_types: if et not in EVENT_TYPES: raise ...]:
    the first element outside the allow-list, if there is one. *)
Fixpoint first_invalid_event_type (l : list string) : option string :=
  match l with
  | [] => None
  | et :: l' =>
      if py_in (Some et) EVENT_TYPES then first_invalid_event_type l'
      else Some et
  end.

Definition msg_invalid_event_list (et : string) : string :=
  ("API Error: Invalid event type '" ++ et ++ "' in event_list")%string.

Definition msg_invalid_alert_level (alert_level : option string) : string :=
  ("API Error: Invalid alert level '" ++ py_str alert_level
     ++ "' in alert_level")%string.

Definition opt_map {A B : Type} (f : A -> B) (x : option A) : option B :=
  match x with
  | None => None
  | Some a => Some (f a)
  end.

Definition is_not_None {A : Type} (x : option A) : bool :=
  match x with
  | None => false
  | Some _ => true
  end.

(** [{k: v for k, v in params.items() if v is not None}] *)
Definition remove_None (params : list (string * option PyVal))
  : list (string * option PyVal) :=
  filter (fun kv => is_not_None (snd kv)) params.

(** [GeoJSON(features=res.json()['features'])] *)
Definition features_of_response (res : Response) : Result GeoJSON :=
  rbind (res_json res) (fun body =>
  rbind (getitem body "features") (fun feats =>
  GeoJSON_init feats)).

Definition latest_events_params
  (event_list alert_level date_modified country : option string)
  (severity page_size page_number : option Z)
  : list (string * option PyVal) :=
  [("eventlist", opt_map VStr event_list);
   ("alertlevel", opt_map VStr alert_level);
   ("datemodified", opt_map VStr date_modified);
   ("country", opt_map VStr country);
   ("severity", opt_map VInt severity);
   ("pagesize", opt_map VInt page_size);
   ("pagenumber", opt_map VInt page_number)].

(** Lines 81-85: the check of [event_list]. *)
Definition check_event_list (event_list : option string) : Result unit :=
  if truthy event_list then
    let event_types := map strip (split comma (py_str event_list)) in
    match first_invalid_event_type event_types with
    | Some et => Raise (ValueError (msg_invalid_event_list et))
    | None => Ok tt
    end
  else Ok tt.

(** Lines 87-88: the check of [alert_level]. *)
Definition check_alert_level (alert_level : option string) : Result unit :=
  if truthy alert_level && negb (py_in alert_level ALERT_LEVELS)
  then Raise (ValueError (msg_invalid_alert_level alert_level))
  else Ok tt.

Definition latest_events
  (event_list alert_level date_modified country : option string)
  (severity page_size page_number : option Z) : M GeoJSON :=
  _ <- lift (check_event_list event_list) ;;
  _ <- lift (check_alert_level alert_level) ;;
  let params :=
    latest_events_params event_list alert_level date_modified country
      severity page_size page_number in
  let params := remove_None params in
  res <- requests_get LATEST_EVENTS_URL params ;;
  if status_code res =? 204 then lift (GeoJSON_init (JArr []))
  else
    check (status_code res =? 200)
      else_raise (GDACSAPIError MSG_API_UNREACHABLE) ;;
    lift (features_of_response res).

(** ** [get_events_by_area] *)

(** What [pygeoif.factories.from_wkt] does with the argument, as far as the
    [try] statement distinguishes it: it returns, it raises an exception
    caught by [except (AttributeError, TypeError)], or it raises another
    exception [e], of which only [str(e)] is used. *)
Inductive WktOutcome : Type :=
| WktParsed
| WktAttributeOrTypeError
| WktOtherException (str_e : string).

Definition msg_invalid_geometry (geometry_area : option string) : string :=
  ("API Error: Invalid geometry_area '" ++ py_str geometry_area ++ "'")%string.

Definition msg_api_error (str_e : string) : string :=
  ("API Error: " ++ str_e)%string.

Section EventsByArea.

(** The WKT parser is a collaborator; the code only depends on how its call
    ends. *)
Variable from_wkt : option string -> WktOutcome.

Definition get_events_by_area (geometry_area : option string)
  (days : option Z) : M GeoJSON :=
  match from_wkt geometry_area with
  | WktAttributeOrTypeError =>
      raise (ValueError (msg_invalid_geometry geometry_area))
  | WktOtherException str_e =>
      raise (GDACSAPIError (msg_api_error str_e))
  | WktParsed =>
      let params :=
        [("geometryArea", opt_map VStr geometry_area);
         ("days", opt_map VInt days)] in
      res <- requests_get EVENTS_BY_AREA_URL params ;;
      if status_code res =? 204 then lift (GeoJSON_init (JArr []))
      else
        check (status_code res =? 200)
          else_raise (GDACSAPIError MSG_API_UNREACHABLE) ;;
        lift (features_of_response res)
  end.

End EventsByArea.

(** ** [get_events_data] *)

Definition get_events_data (event_id : option Z) (event_type : option string)
  (source : option string) : M GeoJSON :=
  check (py_in event_type EVENT_TYPES)
    else_raise (GDACSAPIError MSG_INVALID_EVENT_TYPE) ;;
  let params :=
    [("eventid", opt_map VInt event_id);
     ("eventtype", opt_map VStr event_type);
     ("source", opt_map VStr source)] in
  let params := remove_None params in
  res <- requests_get EVENTS_DATA_URL params ;;
  check (negb (status_code res =? 404))
    else_raise (GDACSAPIError MSG_EVENT_NOT_FOUND) ;;
  check (status_code res =? 200)
    else_raise (GDACSAPIError MSG_API_UNREACHABLE) ;;
  lift (features_of_response res).

(** ** [get_event] and its three handlers *)

(** [os.path.join(a, *p)] with POSIX separators.  A component that is [None]
    makes the call raise TypeError; a component that starts with a slash
    restarts the path; a separator is added unless the path so far is empty
    or ends with one. *)
Definition join_step (path b : string) : string :=
  if startswith b slash then b
  else if is_empty path || endswith path slash then (path ++ b)%string
  else (path ++ "/" ++ b)%string.

Fixpoint join (a : string) (p : list (option string)) : Result string :=
  match p with
  | [] => Ok a
  | None :: _ => Raise TypeError
  | Some b :: p' => join (join_step a b) p'
  end.

(** [join(BASE_URL, event_type, event_id, file_name).replace("\\", "/")] *)
Definition resource_path (event_type : option string) (event_id : string)
  (file_name : string) : Result string :=
  rbind (join BASE_URL [event_type; Some event_id; Some file_name])
    (fun path => Ok (replace backslash slash path)).

Definition geojson_file_name (event_id : string) (episode_id : option string)
  : string :=
  ("geojson_" ++ event_id ++ "_" ++ py_str episode_id ++ ".geojson")%string.

Definition shp_file_name (event_id : string) (episode_id : option string)
  : string :=
  ("Shape_" ++ event_id ++ "_" ++ py_str episode_id ++ ".zip")%string.

Definition xml_file_name (event_id : string) (episode_id : option string)
  (cap_file : bool) : string :=
  if cap_file then ("cap_" ++ event_id ++ ".xml")%string
  else if negb (truthy episode_id) then ("rss_" ++ event_id ++ ".xml")%string
  else ("rss_" ++ event_id ++ "_" ++ py_str episode_id ++ ".xml")%string.

(** What [get_event] returns: the result of one of the three handlers. *)
Inductive EventRecord : Type :=
| GeoJSONRecord (g : GeoJSON)
| ShpConfirmation (s : string)
| XmlRecord (x : JSON).

Section GetEvent.

(** The file-format collaborators of [gdacs/utils.py], each called with
    the resource path. *)
Variable handle_geojson : string -> M GeoJSON.
Variable download_shp : string -> M string.
Variable handle_xml : string -> M JSON.

Definition __get_geojson_event (event_type : option string)
  (event_id : string) (episode_id : option string) : M EventRecord :=
  let file_name := geojson_file_name event_id episode_id in
  geojson_path <- lift (resource_path event_type event_id file_name) ;;
  g <- handle_geojson geojson_path ;;
  ret (GeoJSONRecord g).

Definition __get_shp_event (event_type : option string)
  (event_id : string) (episode_id : option string) : M EventRecord :=
  let file_name := shp_file_name event_id episode_id in
  shp_path <- lift (resource_path event_type event_id file_name) ;;
  s <- download_shp shp_path ;;
  ret (ShpConfirmation s).

Definition __get_xml_event (event_type : option string)
  (event_id : string) (episode_id : option string) (cap_file : bool)
  : M EventRecord :=
  let file_name := xml_file_name event_id episode_id cap_file in
  xml_path <- lift (resource_path event_type event_id file_name) ;;
  x <- handle_xml xml_path ;;
  ret (XmlRecord x).

Definition get_event (event_id : string) (event_type : option string)
  (episode_id : option string) (source_format : option string)
  (cap_file : bool) : M EventRecord :=
  check (py_in event_type EVENT_TYPES)
    else_raise (GDACSAPIError MSG_INVALID_EVENT_TYPE) ;;
  check (py_in source_format DATA_FORMATS)
    else_raise (GDACSAPIError MSG_INVALID_DATA_FORMAT) ;;
  if opt_string_eqb source_format (Some "geojson")
  then __get_geojson_event event_type event_id episode_id
  else if opt_string_eqb source_format (Some "shp")
  then __get_shp_event event_type event_id episode_id
  else __get_xml_event event_type event_id episode_id cap_file.

End GetEvent.


(** ** Calls: arguments as passed, and the defaults of the signatures *)

(** An optional argument of a call: left out, or passed (possibly as
    [None]).

    A Python call passes its first arguments by position and the others by
    keyword.  Each record below holds the values and, in its field
    [positional], how many of them are passed by position: these are the
    first [positional] parameters of the signature, and every other
    argument that is passed goes by keyword. *)
Inductive Arg (A : Type) : Type :=
| Omitted
| Passed (v : A).
Arguments Omitted {A}.
Arguments Passed {A} v.

(** Binding of a parameter that has a default value. *)
Definition bound {A : Type} (default : A) (a : Arg A) : A :=
  match a with
  | Omitted => default
  | Passed v => v
  end.

Record LatestEvents4AppCall : Type := mkLatestEvents4AppCall {
  a4_event_type : Arg (option string);
  a4_limit : Arg (option Z);
  a4_positional : nat
}.

Record LatestEventsCall : Type := mkLatestEventsCall {
  le_event_list : Arg (option string);
  le_alert_level : Arg (option string);
  le_date_modified : Arg (option string);
  le_country : Arg (option string);
  le_severity : Arg (option Z);
  le_page_size : Arg (option Z);
  le_page_number : Arg (option Z);
  le_positional : nat
}.

Record EventsByAreaCall : Type := mkEventsByAreaCall {
  ea_geometry_area : option string;
  ea_days : Arg (option Z);
  ea_positional : nat
}.

Record EventsDataCall : Type := mkEventsDataCall {
  ed_event_id : option Z;
  ed_event_type : option string;
  ed_source : Arg (option string);
  ed_positional : nat
}.

Record EventCall : Type := mkEventCall {
  ev_event_id : string;
  ev_event_type : Arg (option string);
  ev_episode_id : Arg (option string);
  ev_source_format : Arg (option string);
  ev_cap_file : Arg bool;
  ev_positional : nat
}.

(** The signatures of lines 29-32, 49-57, 115-118, 161-165 and 187-193.
    Binding does not depend on how an argument is passed.

    The records above are also the keys of the cache.  The decorator builds
    the key from the arguments as they are passed, before any default is
    filled in: the tuple of the positional values, followed by the keyword
    items sorted by name.  So two calls have the same key exactly when they
    pass the same values in the same way; a call that passes a value by
    keyword instead of by position, or passes a default explicitly, has
    another key.  (The key holds the client object too, which is the same in
    all the calls of one client.) *)
Definition call_latest_events_4app (c : LatestEvents4AppCall) : M GeoJSON :=
  latest_events_4app (bound None (a4_event_type c)) (bound None (a4_limit c)).

Definition call_latest_events (c : LatestEventsCall) : M GeoJSON :=
  latest_events
    (bound None (le_event_list c))
    (bound None (le_alert_level c))
    (bound None (le_date_modified c))
    (bound None (le_country c))
    (bound None (le_severity c))
    (bound (Some 100) (le_page_size c))
    (bound (Some 1) (le_page_number c)).

Definition call_get_events_by_area (from_wkt : option string -> WktOutcome)
  (c : EventsByAreaCall) : M GeoJSON :=
  get_events_by_area from_wkt (ea_geometry_area c) (bound None (ea_days c)).

Definition call_get_events_data (c : EventsDataCall) : M GeoJSON :=
  get_events_data (ed_event_id c) (ed_event_type c) (bound None (ed_source c)).

Definition call_get_event (handle_geojson : string -> M GeoJSON)
  (download_shp : string -> M string) (handle_xml : string -> M JSON)
  (c : EventCall) : M EventRecord :=
  get_event handle_geojson download_shp handle_xml
    (ev_event_id c)
    (bound None (ev_event_type c))
    (bound None (ev_episode_id c))
    (bound None (ev_source_format c))
    (bound false (ev_cap_file c)).

(** A call in which every optional argument is left out. *)
Definition no_arguments_4app : LatestEvents4AppCall :=
  mkLatestEvents4AppCall Omitted Omitted 0.

Definition no_arguments : LatestEventsCall :=
  mkLatestEventsCall Omitted Omitted Omitted Omitted Omitted Omitted Omitted
    0.

(** ** The decorator [@cached(cache=TTLCache(maxsize=500, ttl=CACHE_TTL))] *)

Definition MAXSIZE : nat := 500.

Section Cached.

(** The key of a call is built from its arguments as they are passed; the
    value is what the wrapped function returned. *)
Variables K V : Type.
Variable K_eq_dec : forall a b : K, {a = b} + {a <> b}.

Record Link : Type := mkLink {
  link_key : K;
  link_value : V;
  link_expires : Z
}.

(** Modelled from the spec: the cache class is the [cachetools] library's
    and is not among the sources.  "Fixed capacity with fixed TTL per
    entry; on overflow, least-recently-used entry is evicted; on TTL
    expiry, entry is treated as absent and the wrapped operation runs
    again."  The links are kept least recently used first. *)
Definition TTLCache : Type := list Link.

Definition has_key (k : K) (l : Link) : bool :=
  if K_eq_dec (link_key l) k then true else false.

Definition find_link (k : K) (c : TTLCache) : option Link :=
  find (has_key k) c.

Definition remove_key (k : K) (c : TTLCache) : TTLCache :=
  filter (fun l => negb (has_key k l)) c.

Definition live (now : Z) (l : Link) : bool := now <? link_expires l.

(** [cache[k]] at timer reading [now]: the value of a live link, which
    becomes the most recently used one. *)
Definition cache_getitem (now : Z) (k : K) (c : TTLCache)
  : option (V * TTLCache) :=
  match find_link k c with
  | Some l =>
      if live now l then Some (link_value l, remove_key k c ++ [l])
      else None
  | None => None
  end.

Definition expire (now : Z) (c : TTLCache) : TTLCache :=
  filter (live now) c.

(** [cache[k] = v] at timer reading [now]: expired links are dropped, room
    is made at the least recently used end, and the new link expires
    [CACHE_TTL] later. *)
Definition cache_setitem (now : Z) (k : K) (v : V) (c : TTLCache)
  : TTLCache :=
  let c1 := expire now c in
  let c2 :=
    match find_link k c1 with
    | Some _ => remove_key k c1
    | None => skipn (length c1 + 1 - MAXSIZE) c1
    end in
  c2 ++ [mkLink k v (now + CACHE_TTL)].

(** Modelled from the spec: the wrapper that [cached] puts around a
    function [f].  The cache is read at timer reading [t_get]; on a miss
    the function runs and, when it returns, its value is stored at timer
    reading [t_set].  An exception of [f] leaves the wrapper before
    anything is stored.  The key [k] is the one the decorator computes from
    the arguments as they are passed (see the call records above), not from
    the parameters after the defaults are filled in. *)
Definition cached (f : K -> M V) (t_get t_set : Z) (k : K) (c : TTLCache)
  (srv : Server) (log : list Request)
  : Result V * TTLCache * list Request :=
  match cache_getitem t_get k c with
  | Some (v, c') => (Ok v, c', log)
  | None =>
      match f k srv log with
      | (Ok v, log') => (Ok v, cache_setitem t_set k v c, log')
      | (Raise e, log') => (Raise e, c, log')
      end
  end.

(** A run of successive calls of one decorated operation: each call comes
    with its key and its two timer readings; the results are collected. *)
Fixpoint run_calls (f : K -> M V) (calls : list (K * Z * Z)) (c : TTLCache)
  (srv : Server) (log : list Request)
  : list (Result V) * TTLCache * list Request :=
  match calls with
  | [] => ([], c, log)
  | (k, t_get, t_set) :: calls' =>
      match cached f t_get t_set k c srv log with
      | (r, c', log') =>
          match run_calls f calls' c' srv log' with
          | (rs, c'', log'') => (r :: rs, c'', log'')
          end
      end
  end.

End Cached.

Arguments mkLink {K V} link_key link_value link_expires.
Arguments link_key {K V} l.
Arguments link_value {K V} l.
Arguments link_expires {K V} l.
Arguments has_key {K V} K_eq_dec k l.
Arguments find_link {K V} K_eq_dec k c.
Arguments remove_key {K V} K_eq_dec k c.
Arguments live {K V} now l.
Arguments expire {K V} now c.
Arguments cached {K V} K_eq_dec f t_get t_set k c srv log.
Arguments run_calls {K V} K_eq_dec f calls c srv log.
Arguments cache_getitem {K V} K_eq_dec now k c.
Arguments cache_setitem {K V} K_eq_dec now k v c.

(** *** Equality of keys *)

Definition option_eq_dec {A : Type} (dec : forall a b : A, {a = b} + {a <> b})
  (x y : option A) : {x = y} + {x <> y}.
Proof. decide equality. Defined.

Definition Arg_eq_dec {A : Type} (dec : forall a b : A, {a = b} + {a <> b})
  (x y : Arg A) : {x = y} + {x <> y}.
Proof. decide equality. Defined.

Definition ostr_dec := option_eq_dec string_dec.
Definition oZ_dec := option_eq_dec Z.eq_dec.

Definition LatestEvents4AppCall_eq_dec (x y : LatestEvents4AppCall)
  : {x = y} + {x <> y}.
Proof.
  decide equality;
    first [ apply (Arg_eq_dec ostr_dec) | apply (Arg_eq_dec oZ_dec)
          | apply Nat.eq_dec ].
Defined.

Definition LatestEventsCall_eq_dec (x y : LatestEventsCall) : {x = y} + {x <> y}.
Proof.
  decide equality;
    first [ apply (Arg_eq_dec ostr_dec) | apply (Arg_eq_dec oZ_dec)
          | apply Nat.eq_dec ].
Defined.

Definition EventsByAreaCall_eq_dec (x y : EventsByAreaCall) : {x = y} + {x <> y}.
Proof.
  decide equality;
    first [ apply ostr_dec | apply (Arg_eq_dec oZ_dec) | apply Nat.eq_dec ].
Defined.

Definition EventsDataCall_eq_dec (x y : EventsDataCall) : {x = y} + {x <> y}.
Proof.
  decide equality;
    first [ apply ostr_dec | apply oZ_dec | apply (Arg_eq_dec ostr_dec)
          | apply Nat.eq_dec ].
Defined.

Definition EventCall_eq_dec (x y : EventCall) : {x = y} + {x <> y}.
Proof.
  decide equality;
    first [ apply string_dec | apply (Arg_eq_dec ostr_dec)
          | apply (Arg_eq_dec bool_dec) | apply Nat.eq_dec ].
Defined.

(** *** The five public operations of [GDACSAPIReader] *)

Definition cached_latest_events_4app :=
  cached LatestEvents4AppCall_eq_dec call_latest_events_4app.

Definition cached_latest_events :=
  cached LatestEventsCall_eq_dec call_latest_events.

Definition cached_get_events_by_area (from_wkt : option string -> WktOutcome) :=
  cached EventsByAreaCall_eq_dec (call_get_events_by_area from_wkt).

Definition cached_get_events_data :=
  cached EventsDataCall_eq_dec call_get_events_data.

Definition cached_get_event (handle_geojson : string -> M GeoJSON)
  (download_shp : string -> M string) (handle_xml : string -> M JSON) :=
  cached EventCall_eq_dec
    (call_get_event handle_geojson download_shp handle_xml).

(** ** The shapefile collaborator *)

(** [path.split('/')[-1]] *)
Definition basename (path : string) : string :=
  last (split slash path) EmptyString.

Definition MSG_SHP_UNAVAILABLE : string :=
  "API Error: Unable to read shapefile data for GDACS event.".

(** Modelled from the spec: [download_shp] of [gdacs/utils.py] is not among
    the sources.  The shapefile handler "delegates download+extraction to
    the file collaborator, returns a human-readable confirmation string
    naming the downloaded archive"; the repository's test gives the wording
    of the confirmation.  A status other than 200 is an upstream failure;
    the wording of that message is not fixed by the spec. *)
Definition download_shp (endpoint : string) : M string :=
  res <- requests_get endpoint [] ;;
  check (status_code res =? 200)
    else_raise (GDACSAPIError MSG_SHP_UNAVAILABLE) ;;
  ret ("Downloaded " ++ basename endpoint ++ " in directory.")%string.

(** ** Vocabulary of the statements *)

(** The class of the error that the operations raise when the upstream
    answers with a failure status (lines 39, 109, 156 and 182). *)
Definition upstream_failure_class : ExcClass := GDACSAPIErrorC.

(** The class of the error that lines 85, 88 and 143 raise for input of the
    caller. *)
Definition caller_input_class : ExcClass := ValueErrorC.

(** The server answers [r] with [resp] after the requests of [log]. *)
Definition answers (srv : Server) (log : list Request) (r : Request)
  (resp : Response) : Prop :=
  srv log r = Some resp.

(** An item of the feed that carries [properties.eventtype]. *)
Definition has_event_type (event : JSON) : Prop :=
  exists et, event_type_of event = Ok et.

(** A string that can stand as one path component: not empty, no slash at
    either end, no backslash. *)
Definition path_component (s : string) : Prop :=
  is_empty s = false /\ startswith s slash = false
  /\ endswith s slash = false /\ contains backslash s = false.

Section CachePolicy.

Variables K V : Type.
Variable K_eq_dec : forall a b : K, {a = b} + {a <> b}.
Variable f : K -> M V.

(** The key [k] is looked up at each of the timer readings [ts]. *)
Definition repeats (k : K) (ts : list (Z * Z)) : list (K * Z * Z) :=
  map (fun t => (k, fst t, snd t)) ts.

(** A call that misses the cache and returns [v] is stored at [t_set]:
    every repetition of the call that reads the timer below
    [t_set + CACHE_TTL] returns [v] and issues no request. *)
Definition memoizes_results : Prop :=
  forall (k : K) (c : TTLCache K V) (srv : Server) (log log1 : list Request)
         (t_get t_set : Z) (v : V) (ts : list (Z * Z)),
    cache_getitem K_eq_dec t_get k c = None ->
    f k srv log = (Ok v, log1) ->
    Forall (fun t => fst t < t_set + CACHE_TTL) ts ->
    exists c',
      run_calls K_eq_dec f ((k, t_get, t_set) :: repeats k ts) c srv log
      = (repeat (Ok v) (S (length ts)), c', log1).

(** A call that misses the cache runs the wrapped function. *)
Definition runs_on_miss : Prop :=
  forall (k : K) (c : TTLCache K V) (srv : Server) (log : list Request)
         (t_get t_set : Z),
    cache_getitem K_eq_dec t_get k c = None ->
    let '(r, _, log') := cached K_eq_dec f t_get t_set k c srv log in
    (r, log') = f k srv log.

(** A call that raises stores nothing: the cache is unchanged and a later
    repetition misses again. *)
Definition forgets_exceptions : Prop :=
  forall (k : K) (c : TTLCache K V) (srv : Server) (log log1 : list Request)
         (t_get t_set t_get' : Z) (e : Exc),
    cache_getitem K_eq_dec t_get k c = None ->
    f k srv log = (Raise e, log1) ->
    t_get <= t_get' ->
    cached K_eq_dec f t_get t_set k c srv log = (Raise e, c, log1)
    /\ cache_getitem K_eq_dec t_get' k c = None.

(** The cache holds the link [l] for the key [k]: no link before it has
    that key, and at most [n] links have been used more recently. *)
Definition holds_link (k : K) (l : Link K V) (n : nat) (c : TTLCache K V)
  : Prop :=
  exists pre post,
    c = pre ++ l :: post
    /\ Forall (fun x => has_key K_eq_dec k x = false) pre
    /\ has_key K_eq_dec k l = true
    /\ (length post <= n)%nat.

(** Both timer readings of a call lie below [deadline]. *)
Definition before (deadline : Z) (call : K * Z * Z) : Prop :=
  snd (fst call) < deadline /\ snd call < deadline.

(** A call that misses the cache and returns [v] is stored at [t_set].
    Whatever calls of the operation follow, with whatever keys, as long as
    they are fewer than [MAXSIZE] and read the timer below
    [t_set + CACHE_TTL], a call with the key [k] that reads the timer below
    [t_set + CACHE_TTL] afterwards returns [v] and issues no request. *)
Definition serves_repetitions : Prop :=
  forall (k : K) (c : TTLCache K V) (srv : Server) (log log1 : list Request)
         (t_get t_set : Z) (v : V) (calls : list (K * Z * Z)),
    cache_getitem K_eq_dec t_get k c = None ->
    f k srv log = (Ok v, log1) ->
    (length calls < MAXSIZE)%nat ->
    Forall (before (t_set + CACHE_TTL)) calls ->
    let '(_, c', log') :=
      run_calls K_eq_dec f ((k, t_get, t_set) :: calls) c srv log in
    forall (t_get' t_set' : Z) (srv' : Server),
      t_get' < t_set + CACHE_TTL ->
      exists c'',
        cached K_eq_dec f t_get' t_set' k c' srv' log' = (Ok v, c'', log').

(** After any calls on the empty cache of a fresh process, a call whose key
    is the key of none of them misses. *)
Definition misses_new_keys : Prop :=
  forall (calls : list (K * Z * Z)) (srv : Server) (log : list Request)
         (k' : K) (t : Z),
    ~ In k' (map (fun call => fst (fst call)) calls) ->
    let '(_, c, _) := run_calls K_eq_dec f calls [] srv log in
    cache_getitem K_eq_dec t k' c = None.

(** What the decorator does for the wrapped function [f]. *)
Definition cache_policy : Prop :=
  serves_repetitions /\ memoizes_results /\ runs_on_miss
  /\ forgets_exceptions /\ misses_new_keys.

(** A run of the wrapped function that returns has issued exactly one
    request; a run that raises, at most one. *)
Definition one_request_per_run : Prop :=
  forall (k : K) (srv : Server) (log : list Request),
    match f k srv log with
    | (Ok _, log') => exists r, log' = log ++ [r]
    | (Raise _, log') => log' = log \/ exists r, log' = log ++ [r]
    end.

(** The caches that calls of the decorated operation can produce, starting
    from the empty cache of a fresh process. *)
Inductive reachable : TTLCache K V -> Prop :=
| reachable_empty : reachable []
| reachable_call (c : TTLCache K V) (k : K) (t_get t_set : Z)
    (srv : Server) (log : list Request) :
    reachable c ->
    reachable (snd (fst (cached K_eq_dec f t_get t_set k c srv log))).

(** The wrapped function rejects the key [k] with [e] before any request,
    whatever the server and the history. *)
Definition always_rejects (k : K) (e : Exc) : Prop :=
  forall (srv : Server) (log : list Request), f k srv log = (Raise e, log).

End CachePolicy.

(** ** Servers and parsers used in the examples *)

Definition always (resp : Response) : Server := fun _ _ => Some resp.

Definition status_only (code : Z) : Response := mkResponse code None.

Definition feature_of_type (t : string) : JSON :=
  JObj [("properties", JObj [("eventtype", JStr t)])].

Definition feed (items : list JSON) : Response :=
  mkResponse 200 (Some (JObj [("features", JArr items)])).

(** A server whose first answer is [first] and whose later answers are
    [later]. *)
Definition first_then (first later : Response) : Server :=
  fun log _ => match log with [] => Some first | _ => Some later end.

(** A parser that accepts one point, fails on a coordinate that is not a
    well-formed number with an exception outside [AttributeError] and
    [TypeError] (the [ValueError] of a failed conversion to a number), and
    rejects everything else the way the repository's tests expect for
    [None], the empty string and text that is not WKT. *)
Definition sample_from_wkt (geometry_area : option string) : WktOutcome :=
  match geometry_area with
  | None => WktAttributeOrTypeError
  | Some s =>
      if String.eqb s "POINT(0 0)" then WktParsed
      else if String.eqb s "POINT(1.2.3 4)"
      then WktOtherException "could not convert string to float: '1.2.3'"
      else WktAttributeOrTypeError
  end.

(** ** Further vocabulary *)

(** The event carries the event type [s] in [properties.eventtype]. *)
Definition event_has_type (s : string) (event : JSON) : bool :=
  match event_type_of event with
  | Ok (JStr s') => String.eqb s s'
  | _ => false
  end.

(** Lines 41-46 of [latest_events_4app] as a function of the response: what
    the operation does once the status is known to be 200. *)
Definition events_of_response (event_type : option string)
  (limit : option Z) (res : Response) : Result GeoJSON :=
  rbind (res_json res) (fun body =>
  rbind (getitem body "features") (fun feats =>
  rbind (py_iter feats) (fun items =>
  rbind (filter_raising (event_matches event_type) items) (fun events =>
  GeoJSON_init (JArr (json_loads_dumps (slice_to events limit))))))).

(** [event_list] passes lines 81-85: it is [None] or empty, or every item
    between commas, once stripped, is one of the six event codes. *)
Definition event_list_accepted (event_list : option string) : Prop :=
  truthy event_list = false
  \/ Forall (fun et => In (Some et) EVENT_TYPES)
       (map strip (split comma (py_str event_list))).

(** [alert_level] passes lines 87-88: it is [None], the empty string or one
    of the three levels in lower case. *)
Definition alert_level_accepted (alert_level : option string) : Prop :=
  alert_level = None \/ alert_level = Some ""
  \/ alert_level = Some "green" \/ alert_level = Some "orange"
  \/ alert_level = Some "red".

(** [n] calls of [latest_events_4app] with the limits 1 to [n] passed by
    keyword, each reading the timer at 2 and at 3. *)
Definition calls_with_limits (n : nat)
  : list (LatestEvents4AppCall * Z * Z) :=
  map (fun i =>
         (mkLatestEvents4AppCall Omitted (Passed (Some (Z.of_nat i))) 0, 2, 3))
    (seq 1 n).

(** A server from which no response ever arrives. *)
Definition unreachable : Server := fun _ _ => None.

(** * Properties

    The statements about one operation describe a run of the function under
    the decorator, which is what a call does when it misses the cache
    ([cached_runs_on_miss]); the statements about the decorator come last. *)

(** ** Running the monad *)

Lemma bind_ok {A B : Type} (m : M A) (k : A -> M B) srv log a log' :
  m srv log = (Ok a, log') -> bind m k srv log = k a srv log'.
Proof. intros H. unfold bind. now rewrite H. Qed.

Lemma bind_raise {A B : Type} (m : M A) (k : A -> M B) srv log e log' :
  m srv log = (Raise e, log') -> bind m k srv log = (Raise e, log').
Proof. intros H. unfold bind. now rewrite H. Qed.

Lemma requests_get_answer url params srv log resp :
  answers srv log (mkRequest url params) resp ->
  requests_get url params srv log = (Ok resp, log ++ [mkRequest url params]).
Proof. unfold answers, requests_get. intros H. now rewrite H. Qed.

Lemma requests_get_log url params srv log :
  snd (requests_get url params srv log) = log ++ [mkRequest url params].
Proof. unfold requests_get. now destruct (srv log _). Qed.

Lemma upstream_class_differs_from_caller_class :
  upstream_failure_class <> caller_input_class.
Proof. discriminate. Qed.

(** ** The allow-list of event types *)

Lemma first_invalid_event_type_sound (l : list string) (et : string) :
  first_invalid_event_type l = Some et ->
  In et l /\ py_in (Some et) EVENT_TYPES = false.
Proof.
  induction l as [|x l IH]; cbn [first_invalid_event_type In];
    [discriminate|].
  destruct (py_in (Some x) EVENT_TYPES) eqn:E.
  - intros H. destruct (IH H). tauto.
  - intros [= <-]. tauto.
Qed.

Lemma first_invalid_event_type_complete (l : list string) (et : string) :
  In et l -> py_in (Some et) EVENT_TYPES = false ->
  exists et', first_invalid_event_type l = Some et'.
Proof.
  induction l as [|x l IH]; cbn [first_invalid_event_type In]; [tauto|].
  intros [-> | Hin] Hbad.
  - rewrite Hbad. eauto.
  - destruct (py_in (Some x) EVENT_TYPES); eauto.
Qed.

Lemma latest_events_4app_rejects event_type limit srv log :
  py_in event_type EVENT_TYPES = false ->
  latest_events_4app event_type limit srv log
  = (Raise (GDACSAPIError MSG_INVALID_EVENT_TYPE), log).
Proof. intros H. unfold latest_events_4app. now rewrite H. Qed.

Lemma latest_events_rejects event_list alert_level date_modified country
  severity page_size page_number et srv log :
  truthy event_list = true ->
  In et (map strip (split comma (py_str event_list))) ->
  py_in (Some et) EVENT_TYPES = false ->
  exists et',
    py_in (Some et') EVENT_TYPES = false
    /\ latest_events event_list alert_level date_modified country severity
         page_size page_number srv log
       = (Raise (ValueError (msg_invalid_event_list et')), log).
Proof.
  intros Ht Hin Hbad.
  destruct (first_invalid_event_type_complete _ _ Hin Hbad) as [et' Het'].
  exists et'. split.
  - now apply first_invalid_event_type_sound in Het'.
  - unfold latest_events, check_event_list. rewrite Ht, Het'. reflexivity.
Qed.

Lemma get_events_data_rejects event_id event_type source srv log :
  py_in event_type EVENT_TYPES = false ->
  get_events_data event_id event_type source srv log
  = (Raise (GDACSAPIError MSG_INVALID_EVENT_TYPE), log).
Proof. intros H. unfold get_events_data. now rewrite H. Qed.

Lemma get_event_rejects hg ds hx event_id event_type episode_id source_format
  cap_file srv log :
  py_in event_type EVENT_TYPES = false ->
  get_event hg ds hx event_id event_type episode_id source_format cap_file
    srv log
  = (Raise (GDACSAPIError MSG_INVALID_EVENT_TYPE), log).
Proof. intros H. unfold get_event. now rewrite H. Qed.

(** ** Status codes *)

Lemma latest_events_status event_list alert_level date_modified country
  severity page_size page_number srv log resp :
  check_event_list event_list = Ok tt ->
  check_alert_level alert_level = Ok tt ->
  let r := mkRequest LATEST_EVENTS_URL
             (remove_None
                (latest_events_params event_list alert_level date_modified
                   country severity page_size page_number)) in
  answers srv log r resp ->
  latest_events event_list alert_level date_modified country severity
    page_size page_number srv log
  = (if status_code resp =? 204 then Ok (mkGeoJSON [])
     else if status_code resp =? 200 then features_of_response resp
     else Raise (GDACSAPIError MSG_API_UNREACHABLE),
     log ++ [r]).
Proof.
  intros Hel Hal r Hans.
  unfold latest_events, bind, lift. rewrite Hel, Hal.
  rewrite (requests_get_answer _ _ _ _ _ Hans).
  destruct (status_code resp =? 204); [reflexivity|].
  destruct (status_code resp =? 200); reflexivity.
Qed.

Lemma get_events_by_area_status from_wkt geometry_area days srv log resp :
  from_wkt geometry_area = WktParsed ->
  let r := mkRequest EVENTS_BY_AREA_URL
             [("geometryArea", opt_map VStr geometry_area);
              ("days", opt_map VInt days)] in
  answers srv log r resp ->
  get_events_by_area from_wkt geometry_area days srv log
  = (if status_code resp =? 204 then Ok (mkGeoJSON [])
     else if status_code resp =? 200 then features_of_response resp
     else Raise (GDACSAPIError MSG_API_UNREACHABLE),
     log ++ [r]).
Proof.
  intros Hp r Hans.
  unfold get_events_by_area, bind, lift. rewrite Hp.
  rewrite (requests_get_answer _ _ _ _ _ Hans).
  destruct (status_code resp =? 204); [reflexivity|].
  destruct (status_code resp =? 200); reflexivity.
Qed.

Lemma latest_events_4app_failure event_type limit srv log resp :
  py_in event_type EVENT_TYPES = true ->
  answers srv log (mkRequest LATEST_EVENTS_URL_4APP []) resp ->
  status_code resp <> 200 ->
  latest_events_4app event_type limit srv log
  = (Raise (GDACSAPIError MSG_RSS_UNREACHABLE),
     log ++ [mkRequest LATEST_EVENTS_URL_4APP []]).
Proof.
  intros Hin Hans Hs.
  unfold latest_events_4app, bind. rewrite Hin.
  rewrite (requests_get_answer _ _ _ _ _ Hans).
  apply Z.eqb_neq in Hs. now rewrite Hs.
Qed.

Lemma get_events_data_status event_id event_type source srv log resp :
  py_in event_type EVENT_TYPES = true ->
  let r := mkRequest EVENTS_DATA_URL
             (remove_None
                [("eventid", opt_map VInt event_id);
                 ("eventtype", opt_map VStr event_type);
                 ("source", opt_map VStr source)]) in
  answers srv log r resp ->
  get_events_data event_id event_type source srv log
  = (if status_code resp =? 404 then Raise (GDACSAPIError MSG_EVENT_NOT_FOUND)
     else if status_code resp =? 200 then features_of_response resp
     else Raise (GDACSAPIError MSG_API_UNREACHABLE),
     log ++ [r]).
Proof.
  intros Hin r Hans.
  unfold get_events_data, bind, lift. rewrite Hin.
  rewrite (requests_get_answer _ _ _ _ _ Hans).
  destruct (status_code resp =? 404); [reflexivity|].
  destruct (status_code resp =? 200); reflexivity.
Qed.

(** C2 (as amended).  [latest_events] and [get_events_by_area], once their
    arguments are accepted, turn a response with status 204 into the empty
    feature collection and a response with any status other than 200 and
    204 into the upstream-failure error.  [latest_events_4app] turns every
    status other than 200, 204 included, into the upstream-failure error. *)
Theorem status_code_policy_of_list_operations :
  forall (srv : Server) (log : list Request) (resp : Response),
    (forall event_list alert_level date_modified country severity page_size
            page_number,
        check_event_list event_list = Ok tt ->
        check_alert_level alert_level = Ok tt ->
        let r := mkRequest LATEST_EVENTS_URL
                   (remove_None
                      (latest_events_params event_list alert_level
                         date_modified country severity page_size
                         page_number)) in
        answers srv log r resp ->
        (status_code resp = 204 ->
         latest_events event_list alert_level date_modified country severity
           page_size page_number srv log
         = (Ok (mkGeoJSON []), log ++ [r]))
        /\ (status_code resp <> 200 -> status_code resp <> 204 ->
            latest_events event_list alert_level date_modified country
              severity page_size page_number srv log
            = (Raise (GDACSAPIError MSG_API_UNREACHABLE), log ++ [r])))
    /\ (forall from_wkt geometry_area days,
        from_wkt geometry_area = WktParsed ->
        let r := mkRequest EVENTS_BY_AREA_URL
                   [("geometryArea", opt_map VStr geometry_area);
                    ("days", opt_map VInt days)] in
        answers srv log r resp ->
        (status_code resp = 204 ->
         get_events_by_area from_wkt geometry_area days srv log
         = (Ok (mkGeoJSON []), log ++ [r]))
        /\ (status_code resp <> 200 -> status_code resp <> 204 ->
            get_events_by_area from_wkt geometry_area days srv log
            = (Raise (GDACSAPIError MSG_API_UNREACHABLE), log ++ [r])))
    /\ (forall event_type limit,
        py_in event_type EVENT_TYPES = true ->
        answers srv log (mkRequest LATEST_EVENTS_URL_4APP []) resp ->
        status_code resp <> 200 ->
        latest_events_4app event_type limit srv log
        = (Raise (GDACSAPIError MSG_RSS_UNREACHABLE),
           log ++ [mkRequest LATEST_EVENTS_URL_4APP []]))
    /\ exc_class (GDACSAPIError MSG_API_UNREACHABLE) = upstream_failure_class
    /\ exc_class (GDACSAPIError MSG_RSS_UNREACHABLE) = upstream_failure_class.
Proof.
  intros srv log resp. repeat split.
  - intros H204.
    rewrite (latest_events_status _ _ _ _ _ _ _ _ _ _ H H0 H1).
    now rewrite H204.
  - intros H200 H204.
    rewrite (latest_events_status _ _ _ _ _ _ _ _ _ _ H H0 H1).
    apply Z.eqb_neq in H200, H204. now rewrite H200, H204.
  - intros H204.
    rewrite (get_events_by_area_status _ _ _ _ _ _ H H0).
    now rewrite H204.
  - intros H200 H204.
    rewrite (get_events_by_area_status _ _ _ _ _ _ H H0).
    apply Z.eqb_neq in H200, H204. now rewrite H200, H204.
  - intros. now apply latest_events_4app_failure with (resp := resp).
Qed.

Lemma status_code_policy_witness :
  latest_events None None None None None (Some 100) (Some 1)
    (always (status_only 204)) []
  = (Ok (mkGeoJSON []),
     [mkRequest LATEST_EVENTS_URL
        [("pagesize", Some (VInt 100)); ("pagenumber", Some (VInt 1))]]).
Proof.
  apply (status_code_policy_of_list_operations
           (always (status_only 204)) [] (status_only 204));
    reflexivity.
Defined.

(** C2 (as stated) fails for [latest_events_4app]: on a response with status
    204 it raises instead of returning the empty feature collection. *)
Lemma latest_events_4app_raises_on_204 :
  latest_events_4app None None (always (status_only 204)) []
  = (Raise (GDACSAPIError MSG_RSS_UNREACHABLE),
     [mkRequest LATEST_EVENTS_URL_4APP []])
  /\ result_of (latest_events_4app None None) (always (status_only 204)) []
     <> Ok (mkGeoJSON []).
Proof. split; [reflexivity | discriminate]. Qed.

(** C4 (as amended).  On status 404 [get_events_data] raises a
    [GDACSAPIError] with the message "API Error: Event ID not found."; on
    any other status than 200 and 404 it raises a [GDACSAPIError] with the
    message "API Error: GDACS API can not be reached.".  The two errors have
    the same class and differ in their message. *)
Theorem get_events_data_not_found_differs_by_message :
  forall (srv : Server) (log : list Request) (resp : Response)
         event_id event_type source,
    py_in event_type EVENT_TYPES = true ->
    let r := mkRequest EVENTS_DATA_URL
               (remove_None
                  [("eventid", opt_map VInt event_id);
                   ("eventtype", opt_map VStr event_type);
                   ("source", opt_map VStr source)]) in
    answers srv log r resp ->
    (status_code resp = 404 ->
     get_events_data event_id event_type source srv log
     = (Raise (GDACSAPIError MSG_EVENT_NOT_FOUND), log ++ [r]))
    /\ (status_code resp <> 200 -> status_code resp <> 404 ->
        get_events_data event_id event_type source srv log
        = (Raise (GDACSAPIError MSG_API_UNREACHABLE), log ++ [r]))
    /\ exc_class (GDACSAPIError MSG_EVENT_NOT_FOUND)
       = exc_class (GDACSAPIError MSG_API_UNREACHABLE)
    /\ exc_msg (GDACSAPIError MSG_EVENT_NOT_FOUND)
       <> exc_msg (GDACSAPIError MSG_API_UNREACHABLE).
Proof.
  intros srv log resp event_id event_type source Hin r Hans.
  repeat split.
  - intros H404. unfold r.
    rewrite (get_events_data_status _ _ _ _ _ _ Hin Hans). now rewrite H404.
  - intros H200 H404. unfold r.
    rewrite (get_events_data_status _ _ _ _ _ _ Hin Hans).
    apply Z.eqb_neq in H200, H404. now rewrite H200, H404.
  - discriminate.
Qed.

Lemma get_events_data_not_found_witness :
  get_events_data (Some 1000132) (Some "TC") None
    (always (status_only 404)) []
  = (Raise (GDACSAPIError MSG_EVENT_NOT_FOUND),
     [mkRequest EVENTS_DATA_URL
        [("eventid", Some (VInt 1000132)); ("eventtype", Some (VStr "TC"))]]).
Proof.
  apply (get_events_data_not_found_differs_by_message
           (always (status_only 404)) [] (status_only 404)
           (Some 1000132) (Some "TC") None);
    reflexivity.
Defined.

(** C4 (as stated) fails: the error raised on status 404 and the error
    raised on status 500 are of one and the same class. *)
Lemma not_found_error_is_of_upstream_class :
  raised_class
    (result_of (get_events_data (Some 1000132) (Some "TC") None)
       (always (status_only 404)) [])
  = raised_class
      (result_of (get_events_data (Some 1000132) (Some "TC") None)
         (always (status_only 500)) [])
  /\ raised_class
       (result_of (get_events_data (Some 1000132) (Some "TC") None)
          (always (status_only 404)) [])
     = Some upstream_failure_class.
Proof. split; reflexivity. Qed.

(** ** The geometry argument of [get_events_by_area] *)

Lemma network_calls_none {A : Type} (m : M A) srv log r :
  m srv log = (r, log) -> network_calls m srv log = 0%nat.
Proof.
  intros H. unfold network_calls, log_after. rewrite H. simpl. lia.
Qed.

(** What [get_events_by_area] does when the WKT parser fails on
    [geometry_area]: it raises and issues no request.  The error is the caller-input
    [ValueError] when the parser fails with an [AttributeError] or a
    [TypeError]; it is a [GDACSAPIError] carrying the parser's message when
    the parser fails with any other exception. *)
Theorem get_events_by_area_rejects_unparsed_geometry :
  forall (from_wkt : option string -> WktOutcome)
         (geometry_area : option string) (days : option Z)
         (srv : Server) (log : list Request),
    (from_wkt geometry_area = WktAttributeOrTypeError ->
     get_events_by_area from_wkt geometry_area days srv log
     = (Raise (ValueError (msg_invalid_geometry geometry_area)), log))
    /\ (forall str_e,
        from_wkt geometry_area = WktOtherException str_e ->
        get_events_by_area from_wkt geometry_area days srv log
        = (Raise (GDACSAPIError (msg_api_error str_e)), log))
    /\ (from_wkt geometry_area <> WktParsed ->
        is_ok (result_of (get_events_by_area from_wkt geometry_area days)
                 srv log) = false
        /\ network_calls (get_events_by_area from_wkt geometry_area days)
             srv log = 0%nat)
    /\ exc_class (ValueError (msg_invalid_geometry geometry_area))
       = caller_input_class
    /\ (forall str_e, exc_class (GDACSAPIError (msg_api_error str_e))
                      = upstream_failure_class).
Proof.
  intros from_wkt geometry_area days srv log.
  split; [|split; [|split; [|split]]]; try reflexivity.
  - intros H. unfold get_events_by_area. now rewrite H.
  - intros str_e H. unfold get_events_by_area. now rewrite H.
  - intros H. unfold result_of.
    destruct (from_wkt geometry_area) as [| |str_e] eqn:E; [congruence| |].
    + split.
      * unfold get_events_by_area. now rewrite E.
      * eapply network_calls_none. unfold get_events_by_area.
        rewrite E. reflexivity.
    + split.
      * unfold get_events_by_area. now rewrite E.
      * eapply network_calls_none. unfold get_events_by_area.
        rewrite E. reflexivity.
Qed.

Lemma get_events_by_area_rejects_witness :
  get_events_by_area sample_from_wkt None None (always (feed [])) []
  = (Raise (ValueError "API Error: Invalid geometry_area 'None'"), []).
Proof.
  apply (get_events_by_area_rejects_unparsed_geometry
           sample_from_wkt None None (always (feed [])) []).
  reflexivity.
Defined.

(** C3.  The code fails the claim at the geometry [POINT(1.2.3 4)], a text
    that is not valid WKT: the parser fails with the [ValueError] of a
    number conversion, which is neither an [AttributeError] nor a
    [TypeError], so the handler of line 144 turns it into a [GDACSAPIError].
    No request is issued, but the error is not the caller-input
    [ValueError] that the docstring of the operation promises for invalid
    input. *)
Lemma unparsed_geometry_may_raise_upstream_class :
  sample_from_wkt (Some "POINT(1.2.3 4)") <> WktParsed
  /\ get_events_by_area sample_from_wkt (Some "POINT(1.2.3 4)") None
       (always (feed [])) []
     = (Raise (GDACSAPIError
                 "API Error: could not convert string to float: '1.2.3'"), [])
  /\ raised_class
       (result_of (get_events_by_area sample_from_wkt (Some "POINT(1.2.3 4)") None)
          (always (feed [])) [])
     <> Some caller_input_class.
Proof. repeat split; discriminate. Qed.

(** ** Filtering and limiting in [latest_events_4app] *)

Lemma filter_raising_ok {A : Type} (cond : A -> Result bool) (l l' : list A) :
  filter_raising cond l = Ok l' ->
  forall x, In x l' -> In x l /\ cond x = Ok true.
Proof.
  revert l'. induction l as [|a l IH]; intros l'; cbn [filter_raising].
  - intros [= <-] x [].
  - destruct (cond a) as [keep|e] eqn:Ea; cbn [rbind]; [|discriminate].
    destruct (filter_raising cond l) as [rest|e]; cbn [rbind]; [|discriminate].
    intros [= <-] x Hx. specialize (IH rest eq_refl).
    destruct keep.
    + destruct Hx as [<- | Hx].
      * split; [now left | assumption].
      * destruct (IH x Hx). split; [now right | assumption].
    + destruct (IH x Hx). split; [now right | assumption].
Qed.

Lemma filter_raising_total {A : Type} (cond : A -> Result bool) (l : list A) :
  Forall (fun x => exists b, cond x = Ok b) l ->
  exists l', filter_raising cond l = Ok l'.
Proof.
  induction 1 as [|a l [b Hb] _ [rest IH]]; cbn [filter_raising].
  - now exists [].
  - rewrite Hb, IH. cbn [rbind]. eauto.
Qed.

Lemma In_firstn {A : Type} (n : nat) (l : list A) (x : A) :
  In x (firstn n l) -> In x l.
Proof.
  revert l. induction n as [|n IH]; intros [|a l]; cbn [firstn In]; try tauto.
  intros [-> | H]; [now left | right; now apply IH].
Qed.

Lemma slice_to_In {A : Type} (l : list A) (limit : option Z) (x : A) :
  In x (slice_to l limit) -> In x l.
Proof.
  unfold slice_to. destruct limit as [k|]; [|tauto].
  destruct (0 <=? k); apply In_firstn.
Qed.

Lemma slice_to_length {A : Type} (l : list A) (k : Z) :
  0 <= k -> Z.of_nat (length (slice_to l (Some k))) <= k.
Proof.
  intros Hk. unfold slice_to.
  destruct (0 <=? k) eqn:E; [|apply Z.leb_gt in E; lia].
  pose proof (firstn_le_length (Z.to_nat k) l). lia.
Qed.

Lemma event_matches_true (s : string) (event : JSON) :
  event_matches (Some s) event = Ok true ->
  event_type_of event = Ok (JStr s).
Proof.
  unfold event_matches.
  destruct (event_type_of event) as [et|e]; cbn [rbind]; [|discriminate].
  destruct et; try discriminate.
  intros [= H]. apply String.eqb_eq in H. now subst.
Qed.

Lemma event_matches_total (event_type : option string) (event : JSON) :
  has_event_type event -> exists b, event_matches event_type event = Ok b.
Proof.
  intros [et Het]. unfold event_matches. rewrite Het. cbn [rbind]. eauto.
Qed.

(** What [latest_events_4app] returns when it returns. *)
Lemma latest_events_4app_returns event_type limit srv log g log' :
  latest_events_4app event_type limit srv log = (Ok g, log') ->
  log' = log ++ [mkRequest LATEST_EVENTS_URL_4APP []]
  /\ exists items events,
      filter_raising (event_matches event_type) items = Ok events
      /\ features g = slice_to events limit.
Proof.
  unfold latest_events_4app, bind, lift, raise, requests_get.
  destruct (py_in event_type EVENT_TYPES); [|discriminate].
  destruct (srv log _) as [resp|]; [|discriminate].
  destruct (status_code resp =? 200); [|discriminate].
  destruct (res_json resp) as [body|]; [|discriminate].
  destruct (getitem body "features") as [feats|]; [|discriminate].
  destruct (py_iter feats) as [items|]; [|discriminate].
  destruct (filter_raising (event_matches event_type) items) as [events|] eqn:E;
    [|discriminate].
  cbn [GeoJSON_init json_loads_dumps]. intros [= <- <-].
  split; [reflexivity|]. exists items, events. split; [assumption|reflexivity].
Qed.

(** C5 (as amended).  Whenever [latest_events_4app] returns a feature
    collection: the one request it issued carries no query parameter; for a
    limit [k >= 0] the collection has at most [k] features; and when an
    event type is given, every returned feature has exactly that event type.
    It does return one whenever the event type is allowed and the upstream
    answers with status 200 and a body whose [features] list holds items
    that carry [properties.eventtype]. *)
Theorem latest_events_4app_limit_and_filter :
  forall (event_type : option string) (limit : option Z)
         (srv : Server) (log : list Request),
    (forall g log',
        latest_events_4app event_type limit srv log = (Ok g, log') ->
        log' = log ++ [mkRequest LATEST_EVENTS_URL_4APP []]
        /\ (forall k, limit = Some k -> 0 <= k ->
                      Z.of_nat (length (features g)) <= k)
        /\ (forall s, event_type = Some s ->
                      forall f, In f (features g) ->
                                event_type_of f = Ok (JStr s)))
    /\ (forall resp body items,
        py_in event_type EVENT_TYPES = true ->
        answers srv log (mkRequest LATEST_EVENTS_URL_4APP []) resp ->
        status_code resp = 200 ->
        resp_json resp = Some body ->
        getitem body "features" = Ok (JArr items) ->
        Forall has_event_type items ->
        exists g,
          latest_events_4app event_type limit srv log
          = (Ok g, log ++ [mkRequest LATEST_EVENTS_URL_4APP []])).
Proof.
  intros event_type limit srv log. split.
  - intros g log' H.
    destruct (latest_events_4app_returns _ _ _ _ _ _ H)
      as [Hlog (items & events & Hf & Hg)].
    split; [assumption|]. split.
    + intros k -> Hk. rewrite Hg. now apply slice_to_length.
    + intros s -> f Hin. rewrite Hg in Hin. apply slice_to_In in Hin.
      destruct (filter_raising_ok _ _ _ Hf f Hin) as [_ Hm].
      now apply event_matches_true.
  - intros resp body items Hin Hans H200 Hbody Hfeats Hitems.
    assert (Htot : Forall (fun x => exists b, event_matches event_type x = Ok b)
                     items).
    { eapply Forall_impl; [|exact Hitems].
      intros a Ha. now apply event_matches_total. }
    destruct (filter_raising_total _ _ Htot) as [events Hev].
    exists (mkGeoJSON (slice_to events limit)).
    unfold latest_events_4app, bind, lift. rewrite Hin.
    rewrite (requests_get_answer _ _ _ _ _ Hans), H200.
    cbn [Z.eqb Pos.eqb]. unfold res_json. rewrite Hbody, Hfeats.
    cbn [py_iter]. rewrite Hev. reflexivity.
Qed.

Lemma latest_events_4app_limit_and_filter_witness :
  exists g,
    latest_events_4app (Some "EQ") (Some 1)
      (always (feed [feature_of_type "TC"; feature_of_type "EQ";
                     feature_of_type "EQ"])) []
    = (Ok g, [mkRequest LATEST_EVENTS_URL_4APP []]).
Proof.
  apply (proj2 (latest_events_4app_limit_and_filter (Some "EQ") (Some 1)
                  (always (feed [feature_of_type "TC"; feature_of_type "EQ";
                                 feature_of_type "EQ"])) [])
           (feed [feature_of_type "TC"; feature_of_type "EQ";
                  feature_of_type "EQ"])
           (JObj [("features",
                   JArr [feature_of_type "TC"; feature_of_type "EQ";
                         feature_of_type "EQ"])])
           [feature_of_type "TC"; feature_of_type "EQ"; feature_of_type "EQ"]);
    try reflexivity.
  repeat constructor; eexists; reflexivity.
Defined.

(** C5 (as stated) fails for a negative limit: with [limit = -1] and a feed
    of two events the collection returned has one feature, which is more
    than the limit. *)
Lemma latest_events_4app_negative_limit :
  latest_events_4app None (Some (-1))
    (always (feed [feature_of_type "EQ"; feature_of_type "TC"])) []
  = (Ok (mkGeoJSON [feature_of_type "EQ"]),
     [mkRequest LATEST_EVENTS_URL_4APP []])
  /\ ~ (Z.of_nat (length (features (mkGeoJSON [feature_of_type "EQ"]))) <= -1).
Proof. split; [reflexivity | cbn; lia]. Qed.

(** ** The query parameters of [latest_events] *)

Lemma latest_events_log event_list alert_level date_modified country
  severity page_size page_number srv log :
  check_event_list event_list = Ok tt ->
  check_alert_level alert_level = Ok tt ->
  log_after (latest_events event_list alert_level date_modified country
               severity page_size page_number) srv log
  = log ++ [mkRequest LATEST_EVENTS_URL
              (remove_None
                 (latest_events_params event_list alert_level date_modified
                    country severity page_size page_number))].
Proof.
  intros Hel Hal. unfold log_after, latest_events, bind, lift, raise.
  rewrite Hel, Hal.
  pose proof (requests_get_log LATEST_EVENTS_URL
                (remove_None
                   (latest_events_params event_list alert_level date_modified
                      country severity page_size page_number)) srv log) as Hlog.
  destruct (requests_get _ _ srv log) as [[resp|e] log1]; cbn [snd] in Hlog;
    subst log1; [|reflexivity].
  destruct (status_code resp =? 204); [reflexivity|].
  destruct (status_code resp =? 200); reflexivity.
Qed.

Lemma remove_None_keeps (params : list (string * option PyVal)) key v :
  In (key, v) (remove_None params) <-> In (key, v) params /\ v <> None.
Proof.
  unfold remove_None. rewrite filter_In. cbn [snd].
  destruct v; cbn [is_not_None]; intuition congruence.
Qed.

(** C6 (as amended).  When the arguments pass validation, [latest_events]
    issues one GET whose parameters are the seven named ones without those
    whose value is [None]: each parameter is sent with its value, or left
    out when the value is [None].  In a call that leaves every argument
    unset, the five filters are [None] and are left out, whereas
    [page_size] and [page_number] take their defaults 100 and 1 and are
    sent. *)
Theorem latest_events_omits_None_parameters :
  forall (event_list alert_level date_modified country : option string)
         (severity page_size page_number : option Z)
         (srv : Server) (log : list Request),
    check_event_list event_list = Ok tt ->
    check_alert_level alert_level = Ok tt ->
    exists r,
      log_after (latest_events event_list alert_level date_modified country
                   severity page_size page_number) srv log = log ++ [r]
      /\ req_url r = LATEST_EVENTS_URL
      /\ (forall key v,
             In (key, v) (req_params r) <->
             In (key, v)
                (latest_events_params event_list alert_level date_modified
                   country severity page_size page_number)
             /\ v <> None)
      /\ assoc "eventlist" (req_params r) = opt_map (fun s => Some (VStr s)) event_list
      /\ assoc "alertlevel" (req_params r) = opt_map (fun s => Some (VStr s)) alert_level
      /\ assoc "datemodified" (req_params r) = opt_map (fun s => Some (VStr s)) date_modified
      /\ assoc "country" (req_params r) = opt_map (fun s => Some (VStr s)) country
      /\ assoc "severity" (req_params r) = opt_map (fun n => Some (VInt n)) severity
      /\ assoc "pagesize" (req_params r) = opt_map (fun n => Some (VInt n)) page_size
      /\ assoc "pagenumber" (req_params r) = opt_map (fun n => Some (VInt n)) page_number
      /\ log_after (call_latest_events no_arguments) srv log
         = log ++ [mkRequest LATEST_EVENTS_URL
                     [("pagesize", Some (VInt 100));
                      ("pagenumber", Some (VInt 1))]].
Proof.
  intros event_list alert_level date_modified country severity page_size
    page_number srv log Hel Hal.
  eexists. split; [now apply latest_events_log|].
  split; [reflexivity|]. split; [intros; apply remove_None_keeps|].
  cbn [req_params].
  repeat split;
    try (destruct event_list, alert_level, date_modified, country, severity,
           page_size, page_number; reflexivity).
  unfold call_latest_events, no_arguments. cbn [bound le_event_list
    le_alert_level le_date_modified le_country le_severity le_page_size
    le_page_number].
  now rewrite latest_events_log.
Qed.

Lemma latest_events_omits_None_parameters_witness :
  exists r,
    log_after (latest_events (Some "EQ,TC") (Some "red") None None None
                 (Some 5) None) (always (status_only 204)) [] = [] ++ [r]
    /\ assoc "eventlist" (req_params r) = Some (Some (VStr "EQ,TC"))
    /\ assoc "country" (req_params r) = None
    /\ assoc "pagenumber" (req_params r) = None.
Proof.
  destruct (latest_events_omits_None_parameters
              (Some "EQ,TC") (Some "red") None None None (Some 5) None
              (always (status_only 204)) [] eq_refl eq_refl)
    as (r & Hlog & _ & _ & H1 & _ & _ & H4 & _ & _ & H7 & _).
  exists r. repeat split; assumption.
Defined.

(** C6 (as stated) fails for [pagesize] and [pagenumber]: a call that sets
    no argument at all still sends both, with the defaults of the
    signature. *)
Lemma latest_events_sends_default_page_parameters :
  log_after (call_latest_events no_arguments) (always (status_only 204)) []
  = [mkRequest LATEST_EVENTS_URL
       [("pagesize", Some (VInt 100)); ("pagenumber", Some (VInt 1))]]
  /\ le_page_size no_arguments = Omitted
  /\ le_page_number no_arguments = Omitted.
Proof. repeat split. Qed.

(** ** Resource paths of [get_event] *)

Lemma string_app_assoc (a b c : string) :
  ((a ++ b) ++ c)%string = (a ++ (b ++ c))%string.
Proof. induction a as [|x a IH]; cbn [append]; [reflexivity | now rewrite IH]. Qed.

Lemma is_empty_app (a b : string) :
  is_empty (a ++ b)%string = is_empty a && is_empty b.
Proof. destruct a; reflexivity. Qed.

Lemma endswith_app (a b : string) (c : ascii) :
  is_empty b = false -> endswith (a ++ b)%string c = endswith b c.
Proof.
  intros Hb. induction a as [|x a IH]; [reflexivity|].
  cbn [append endswith]. rewrite IH.
  destruct (a ++ b)%string eqn:E; [|reflexivity].
  pose proof (is_empty_app a b) as H. rewrite E, Hb, andb_false_r in H.
  discriminate.
Qed.

Lemma startswith_app (a b : string) (c : ascii) :
  is_empty a = false -> startswith (a ++ b)%string c = startswith a c.
Proof. destruct a; [discriminate | reflexivity]. Qed.

Lemma contains_app (c : ascii) (a b : string) :
  contains c (a ++ b)%string = contains c a || contains c b.
Proof.
  induction a as [|x a IH]; [reflexivity|].
  cbn [append contains]. now rewrite IH, orb_assoc.
Qed.

Lemma replace_absent (a b : ascii) (s : string) :
  contains a s = false -> replace a b s = s.
Proof.
  induction s as [|x s IH]; [reflexivity|].
  cbn [contains replace]. intros H. apply orb_false_elim in H as [Hx Hs].
  now rewrite Hx, IH.
Qed.

Lemma replace_removes (a b : ascii) (s : string) :
  a <> b -> contains a (replace a b s) = false.
Proof.
  intros Hab. induction s as [|x s IH]; [reflexivity|].
  cbn [replace contains]. rewrite IH, orb_false_r.
  destruct (Ascii.eqb x a) eqn:E; [|assumption].
  apply Ascii.eqb_neq. congruence.
Qed.

Lemma join_step_component (path b : string) :
  is_empty path = false -> endswith path slash = false ->
  startswith b slash = false ->
  join_step path b = (path ++ "/" ++ b)%string.
Proof.
  intros Hp He Hb. unfold join_step. now rewrite Hb, Hp, He.
Qed.

Lemma allowed_event_type_is_component (et : string) :
  py_in (Some et) EVENT_TYPES = true -> path_component et.
Proof.
  unfold py_in, EVENT_TYPES. cbn [existsb opt_string_eqb].
  repeat rewrite orb_true_iff. rewrite !String.eqb_eq.
  intros H. decompose [or] H; subst; try discriminate;
    repeat split; reflexivity.
Qed.

(** With components that are plain, the path is the base URL, the event
    type, the event id and the file name, separated by slashes. *)
Lemma resource_path_plain (et event_id file_name : string) :
  path_component et -> path_component event_id ->
  startswith file_name slash = false ->
  contains backslash file_name = false ->
  resource_path (Some et) event_id file_name
  = Ok (BASE_URL ++ "/" ++ et ++ "/" ++ event_id ++ "/" ++ file_name)%string.
Proof.
  intros (Het1 & Het2 & Het3 & Het4) (Hid1 & Hid2 & Hid3 & Hid4) Hf1 Hf2.
  unfold resource_path. cbn [join rbind].
  rewrite (join_step_component BASE_URL et) by (reflexivity || assumption).
  rewrite (join_step_component _ event_id); try assumption.
  2:{ rewrite is_empty_app. reflexivity. }
  2:{ rewrite <- (string_app_assoc _ "/" et).
      rewrite endswith_app; assumption. }
  rewrite (join_step_component _ file_name); try assumption.
  2:{ rewrite is_empty_app. rewrite is_empty_app. reflexivity. }
  2:{ rewrite <- (string_app_assoc _ "/" event_id).
      rewrite endswith_app; assumption. }
  f_equal. rewrite replace_absent.
  - now rewrite !string_app_assoc.
  - rewrite !contains_app, Het4, Hid4, Hf2. reflexivity.
Qed.

Lemma resource_path_forward_slashes event_type event_id file_name path :
  resource_path event_type event_id file_name = Ok path ->
  contains backslash path = false.
Proof.
  unfold resource_path.
  destruct (join BASE_URL _) as [p|e]; cbn [rbind]; [|discriminate].
  intros [= <-]. apply replace_removes. discriminate.
Qed.

Lemma shp_file_name_plain (event_id : string) (episode_id : option string) :
  contains backslash event_id = false ->
  contains backslash (py_str episode_id) = false ->
  startswith (shp_file_name event_id episode_id) slash = false
  /\ contains backslash (shp_file_name event_id episode_id) = false.
Proof.
  intros H1 H2. split; [reflexivity|].
  unfold shp_file_name. rewrite !contains_app, H1, H2. reflexivity.
Qed.

Lemma geojson_file_name_plain (event_id : string) (episode_id : option string) :
  contains backslash event_id = false ->
  contains backslash (py_str episode_id) = false ->
  startswith (geojson_file_name event_id episode_id) slash = false
  /\ contains backslash (geojson_file_name event_id episode_id) = false.
Proof.
  intros H1 H2. split; [reflexivity|].
  unfold geojson_file_name. rewrite !contains_app, H1, H2. reflexivity.
Qed.

Lemma get_shp_event_path ds (et event_id : string)
  (episode_id : option string) srv log :
  py_in (Some et) EVENT_TYPES = true ->
  path_component event_id ->
  contains backslash (py_str episode_id) = false ->
  __get_shp_event ds (Some et) event_id episode_id srv log
  = bind (ds (BASE_URL ++ "/" ++ et ++ "/" ++ event_id ++ "/"
                ++ "Shape_" ++ event_id ++ "_" ++ py_str episode_id
                ++ ".zip")%string)
      (fun s => ret (ShpConfirmation s)) srv log.
Proof.
  intros Het Hid Hep.
  destruct (shp_file_name_plain event_id episode_id) as [Hf1 Hf2];
    [apply Hid | assumption |].
  unfold __get_shp_event, bind at 1, lift.
  rewrite (resource_path_plain et event_id _
             (allowed_event_type_is_component et Het) Hid Hf1 Hf2).
  reflexivity.
Qed.

Lemma get_event_shp hg ds hx event_id event_type episode_id cap_file srv log :
  py_in event_type EVENT_TYPES = true ->
  get_event hg ds hx event_id event_type episode_id (Some "shp") cap_file
    srv log
  = __get_shp_event ds event_type event_id episode_id srv log.
Proof. intros H. unfold get_event. now rewrite H. Qed.

Lemma replace_app (a b : ascii) (s t : string) :
  replace a b (s ++ t)%string = (replace a b s ++ replace a b t)%string.
Proof.
  induction s as [|x s IH]; [reflexivity|].
  cbn [append replace]. now rewrite IH.
Qed.

(** With an event id that is not empty and has no slash at either end, the
    path is the base URL and the event type, followed by the event id and
    the file name with their backslashes turned into slashes. *)
Lemma resource_path_joined (et event_id file_name : string) :
  path_component et ->
  is_empty event_id = false ->
  startswith event_id slash = false ->
  endswith event_id slash = false ->
  startswith file_name slash = false ->
  resource_path (Some et) event_id file_name
  = Ok (BASE_URL ++ "/" ++ et ++ "/"
          ++ replace backslash slash (event_id ++ "/" ++ file_name))%string.
Proof.
  intros (Het1 & Het2 & Het3 & Het4) Hid1 Hid2 Hid3 Hf.
  unfold resource_path. cbn [join rbind].
  rewrite (join_step_component BASE_URL et) by (reflexivity || assumption).
  rewrite (join_step_component _ event_id); try assumption.
  2:{ rewrite is_empty_app. reflexivity. }
  2:{ rewrite <- (string_app_assoc _ "/" et).
      rewrite endswith_app; assumption. }
  rewrite (join_step_component _ file_name); try assumption.
  2:{ rewrite is_empty_app. rewrite is_empty_app. reflexivity. }
  2:{ rewrite <- (string_app_assoc _ "/" event_id).
      rewrite endswith_app; assumption. }
  f_equal. rewrite !string_app_assoc. rewrite !replace_app.
  rewrite (replace_absent backslash slash et Het4). reflexivity.
Qed.




(** ** [get_event] without an event type *)

(** C9 (as amended).  [None] is a member of the allow-list of event types,
    so a call of [get_event] that leaves [event_type] unset (or passes
    [None]) passes the check.  With a source format from its allow-list the
    call then fails in the path join with a [TypeError], which is not the
    library's own error class, before any collaborator is called and before
    any request is issued.  With a source format outside the allow-list the
    call raises the library's [GDACSAPIError] about the data format
    instead, before any path is built. *)
Theorem get_event_without_event_type_raises_type_error :
  forall hg ds hx (c : EventCall) (srv : Server) (log : list Request),
    ev_event_type c = Omitted \/ ev_event_type c = Passed None ->
    py_in (bound None (ev_event_type c)) EVENT_TYPES = true
    /\ (py_in (bound None (ev_source_format c)) DATA_FORMATS = true ->
        (forall file_name,
            resource_path (bound None (ev_event_type c)) (ev_event_id c)
              file_name
            = Raise TypeError)
        /\ call_get_event hg ds hx c srv log = (Raise TypeError, log))
    /\ (py_in (bound None (ev_source_format c)) DATA_FORMATS = false ->
        call_get_event hg ds hx c srv log
        = (Raise (GDACSAPIError MSG_INVALID_DATA_FORMAT), log))
    /\ exc_class TypeError <> exc_class (GDACSAPIError MSG_INVALID_DATA_FORMAT).
Proof.
  intros hg ds hx c srv log Het.
  assert (E : bound None (ev_event_type c) = None)
    by (destruct Het as [-> | ->]; reflexivity).
  rewrite E. split; [reflexivity|]. split; [|split; [|discriminate]].
  - intros Hsf. split; [reflexivity|].
    unfold call_get_event, get_event. rewrite E, Hsf.
    change (py_in None EVENT_TYPES) with true. cbv iota.
    destruct (opt_string_eqb (bound None (ev_source_format c))
                (Some "geojson")); [reflexivity|].
    destruct (opt_string_eqb (bound None (ev_source_format c)) (Some "shp"));
      reflexivity.
  - intros Hsf. unfold call_get_event, get_event. rewrite E, Hsf.
    reflexivity.
Qed.

Lemma get_event_without_event_type_witness :
  call_get_event (fun _ => raise ValidationError) download_shp
    (fun _ => raise KeyError)
    (mkEventCall "1000132" Omitted Omitted Omitted Omitted 1)
    (always (status_only 200)) []
  = (Raise TypeError, []).
Proof.
  apply (get_event_without_event_type_raises_type_error
           (fun _ => raise ValidationError) download_shp
           (fun _ => raise KeyError)
           (mkEventCall "1000132" Omitted Omitted Omitted Omitted 1)
           (always (status_only 200)) []).
  - left. reflexivity.
  - reflexivity.
Defined.

(** C9 (as stated) fails when the source format is not allowed: with the
    event type unset and the format SHP in capitals, the call raises the
    library's [GDACSAPIError] about the data format, not a [TypeError]. *)
Lemma get_event_without_event_type_may_raise_domain_error :
  call_get_event (fun _ => raise ValidationError) download_shp
    (fun _ => raise KeyError)
    (mkEventCall "1000132" Omitted Omitted (Passed (Some "SHP")) Omitted 1)
    (always (status_only 200)) []
  = (Raise (GDACSAPIError MSG_INVALID_DATA_FORMAT), [])
  /\ raised_class
       (result_of
          (call_get_event (fun _ => raise ValidationError) download_shp
             (fun _ => raise KeyError)
             (mkEventCall "1000132" Omitted Omitted (Passed (Some "SHP"))
                Omitted 1))
          (always (status_only 200)) [])
     <> Some TypeErrorC.
Proof. split; [reflexivity | discriminate]. Qed.

(** ** File names when [episode_id] is [None] *)

Lemma get_event_geojson hg ds hx event_id event_type episode_id cap_file
  srv log :
  py_in event_type EVENT_TYPES = true ->
  get_event hg ds hx event_id event_type episode_id (Some "geojson") cap_file
    srv log
  = __get_geojson_event hg event_type event_id episode_id srv log.
Proof. intros H. unfold get_event. now rewrite H. Qed.

Lemma get_event_xml hg ds hx event_id event_type episode_id source_format
  cap_file srv log :
  py_in event_type EVENT_TYPES = true ->
  source_format = None \/ source_format = Some "xml" ->
  get_event hg ds hx event_id event_type episode_id source_format cap_file
    srv log
  = __get_xml_event hx event_type event_id episode_id cap_file srv log.
Proof.
  intros H [-> | ->]; unfold get_event; now rewrite H.
Qed.

(** C10.  With [episode_id = None] the GeoJSON and shapefile handlers still
    interpolate it: the file names are [geojson_{event_id}_None.geojson] and
    [Shape_{event_id}_None.zip], and these are the names in the paths handed
    to the collaborators.  The XML handler leaves the episode out and uses
    [rss_{event_id}.xml] (or [cap_{event_id}.xml] when the CAP file is
    asked for). *)
Theorem episode_None_appears_in_geojson_and_shp_names :
  forall hg ds hx (et event_id : string) (cap_file : bool)
         (srv : Server) (log : list Request),
    py_in (Some et) EVENT_TYPES = true ->
    path_component event_id ->
    geojson_file_name event_id None
    = ("geojson_" ++ event_id ++ "_None.geojson")%string
    /\ shp_file_name event_id None
       = ("Shape_" ++ event_id ++ "_None.zip")%string
    /\ xml_file_name event_id None false = ("rss_" ++ event_id ++ ".xml")%string
    /\ xml_file_name event_id None true = ("cap_" ++ event_id ++ ".xml")%string
    /\ get_event hg ds hx event_id (Some et) None (Some "geojson") cap_file
         srv log
       = bind (hg (BASE_URL ++ "/" ++ et ++ "/" ++ event_id ++ "/"
                     ++ "geojson_" ++ event_id ++ "_None.geojson")%string)
           (fun g => ret (GeoJSONRecord g)) srv log
    /\ get_event hg ds hx event_id (Some et) None (Some "shp") cap_file
         srv log
       = bind (ds (BASE_URL ++ "/" ++ et ++ "/" ++ event_id ++ "/"
                     ++ "Shape_" ++ event_id ++ "_None.zip")%string)
           (fun s => ret (ShpConfirmation s)) srv log
    /\ get_event hg ds hx event_id (Some et) None None false srv log
       = bind (hx (BASE_URL ++ "/" ++ et ++ "/" ++ event_id ++ "/"
                     ++ "rss_" ++ event_id ++ ".xml")%string)
           (fun x => ret (XmlRecord x)) srv log.
Proof.
  intros hg ds hx et event_id cap_file srv log Het Hid.
  pose proof (allowed_event_type_is_component et Het) as Hc.
  assert (Hb : contains backslash event_id = false) by apply Hid.
  repeat (split; [reflexivity|]).
  split; [|split].
  - rewrite get_event_geojson by assumption.
    destruct (geojson_file_name_plain event_id None Hb eq_refl) as [Hf1 Hf2].
    unfold __get_geojson_event, bind at 1, lift.
    rewrite (resource_path_plain et event_id _ Hc Hid Hf1 Hf2). reflexivity.
  - rewrite get_event_shp by assumption.
    now rewrite get_shp_event_path.
  - rewrite (get_event_xml hg ds hx event_id (Some et) None None false srv log
               Het (or_introl eq_refl)).
    unfold __get_xml_event, bind at 1, lift.
    rewrite (resource_path_plain et event_id
               (xml_file_name event_id None false) Hc Hid).
    + reflexivity.
    + reflexivity.
    + unfold xml_file_name. cbn [truthy negb].
      rewrite !contains_app, Hb. reflexivity.
Qed.

Lemma episode_None_appears_witness :
  geojson_file_name "1012428" None = "geojson_1012428_None.geojson"
  /\ shp_file_name "1012428" None = "Shape_1012428_None.zip"
  /\ xml_file_name "1012428" None false = "rss_1012428.xml".
Proof.
  destruct (episode_None_appears_in_geojson_and_shp_names
              (fun _ => raise ValidationError) download_shp
              (fun _ => raise KeyError) "DR" "1012428" false
              (always (status_only 200)) [])
    as (H1 & H2 & H3 & _).
  - reflexivity.
  - repeat split; reflexivity.
  - repeat split; assumption.
Defined.

(** ** The cache *)

Section CacheFacts.

Variables K V : Type.
Variable K_eq_dec : forall a b : K, {a = b} + {a <> b}.
Variable f : K -> M V.

Lemma has_key_same (k : K) (l : Link K V) :
  has_key K_eq_dec k l = true <-> link_key l = k.
Proof.
  unfold has_key. destruct (K_eq_dec (link_key l) k);
    split; congruence.
Qed.

Lemma find_link_app (k : K) (c1 c2 : TTLCache K V) :
  find_link K_eq_dec k (c1 ++ c2)
  = match find_link K_eq_dec k c1 with
    | Some l => Some l
    | None => find_link K_eq_dec k c2
    end.
Proof.
  unfold find_link.
  induction c1 as [|l c1 IH]; [reflexivity|].
  cbn [app find]. destruct (has_key K_eq_dec k l); [reflexivity | exact IH].
Qed.

Lemma find_link_remove_key (k : K) (c : TTLCache K V) :
  find_link K_eq_dec k (remove_key K_eq_dec k c) = None.
Proof.
  unfold find_link, remove_key.
  induction c as [|l c IH]; [reflexivity|].
  cbn [filter]. destruct (has_key K_eq_dec k l) eqn:E; cbn [negb]; [exact IH|].
  cbn [find]. now rewrite E.
Qed.

Lemma find_link_skipn (k : K) (n : nat) (c : TTLCache K V) :
  find_link K_eq_dec k c = None -> find_link K_eq_dec k (skipn n c) = None.
Proof.
  unfold find_link. revert c.
  induction n as [|n IH]; intros [|l c]; cbn [skipn find]; try tauto.
  destruct (has_key K_eq_dec k l); [discriminate | apply IH].
Qed.

Lemma find_link_setitem (now : Z) (k : K) (v : V) (c : TTLCache K V) :
  find_link K_eq_dec k (cache_setitem K_eq_dec now k v c)
  = Some (mkLink k v (now + CACHE_TTL)).
Proof.
  unfold cache_setitem. rewrite find_link_app.
  assert (E : find_link K_eq_dec k
                match find_link K_eq_dec k (expire now c) with
                | Some _ => remove_key K_eq_dec k (expire now c)
                | None =>
                    skipn (length (expire now c) + 1 - MAXSIZE)
                      (expire now c)
                end = None).
  { destruct (find_link K_eq_dec k (expire now c)) eqn:E.
    - apply find_link_remove_key.
    - now apply find_link_skipn. }
  rewrite E. unfold find_link. cbn [find].
  assert (H : has_key K_eq_dec k (mkLink k v (now + CACHE_TTL)) = true)
    by now apply has_key_same.
  now rewrite H.
Qed.

(** A live link is found, and it stays in the cache when it is read. *)
Lemma cache_getitem_hit (now : Z) (k : K) (c : TTLCache K V) (l : Link K V) :
  find_link K_eq_dec k c = Some l ->
  now < link_expires l ->
  cache_getitem K_eq_dec now k c
  = Some (link_value l, remove_key K_eq_dec k c ++ [l])
  /\ find_link K_eq_dec k (remove_key K_eq_dec k c ++ [l]) = Some l.
Proof.
  intros Hf Hlive. split.
  - unfold cache_getitem. rewrite Hf. unfold live.
    apply Z.ltb_lt in Hlive. now rewrite Hlive.
  - rewrite find_link_app, find_link_remove_key.
    unfold find_link in *. cbn [find].
    apply find_some in Hf as [_ Hk]. now rewrite Hk.
Qed.

Lemma cache_getitem_miss_later (t t' : Z) (k : K) (c : TTLCache K V) :
  cache_getitem K_eq_dec t k c = None -> t <= t' ->
  cache_getitem K_eq_dec t' k c = None.
Proof.
  unfold cache_getitem, live. destruct (find_link K_eq_dec k c) as [l|]; [|tauto].
  destruct (t <? link_expires l) eqn:E; [discriminate|].
  intros _ Ht. apply Z.ltb_ge in E.
  assert (E' : (t' <? link_expires l) = false) by (apply Z.ltb_ge; lia).
  now rewrite E'.
Qed.

Lemma run_calls_repeats (k : K) (l : Link K V) (ts : list (Z * Z))
  (c : TTLCache K V) (srv : Server) (log : list Request) :
  find_link K_eq_dec k c = Some l ->
  Forall (fun t => fst t < link_expires l) ts ->
  exists c',
    run_calls K_eq_dec f (repeats K k ts) c srv log
    = (repeat (Ok (link_value l)) (length ts), c', log).
Proof.
  intros Hf Hts. revert c Hf.
  induction Hts as [|[t_get t_set] ts Ht _ IH]; intros c Hf.
  - exists c. reflexivity.
  - cbn [fst] in Ht.
    destruct (cache_getitem_hit t_get k c l Hf Ht) as [Hhit Hf'].
    destruct (IH _ Hf') as [c' Hrun]. exists c'.
    cbn [repeats map fst snd run_calls length repeat].
    unfold cached. rewrite Hhit.
    fold (repeats K k ts). now rewrite Hrun.
Qed.

Lemma cached_memoizes_results : memoizes_results K V K_eq_dec f.
Proof.
  intros k c srv log log1 t_get t_set v ts Hmiss Hrun Hts.
  pose proof (find_link_setitem t_set k v c) as Hf.
  destruct (run_calls_repeats k _ ts _ srv log1 Hf Hts) as [c' Hrep].
  exists c'. cbn [run_calls]. unfold cached at 1.
  rewrite Hmiss, Hrun. rewrite Hrep. reflexivity.
Qed.

Lemma cached_runs_on_miss : runs_on_miss K V K_eq_dec f.
Proof.
  intros k c srv log t_get t_set Hmiss. unfold cached. rewrite Hmiss.
  destruct (f k srv log) as [[v|e] log']; reflexivity.
Qed.

Lemma cached_forgets_exceptions : forgets_exceptions K V K_eq_dec f.
Proof.
  intros k c srv log log1 t_get t_set t_get' e Hmiss Hrun Ht. split.
  - unfold cached. now rewrite Hmiss, Hrun.
  - now apply cache_getitem_miss_later with (t := t_get).
Qed.

Lemma In_cache_setitem (now : Z) (k : K) (v : V) (c : TTLCache K V)
  (l : Link K V) :
  In l (cache_setitem K_eq_dec now k v c) ->
  l = mkLink k v (now + CACHE_TTL) \/ In l c.
Proof.
  unfold cache_setitem. rewrite in_app_iff. cbn [In].
  intros [H | [H | []]]; [right | now left].
  assert (He : forall x, In x (expire now c) -> In x c).
  { intros x Hx. unfold expire in Hx. now apply filter_In in Hx. }
  destruct (find_link K_eq_dec k (expire now c)).
  - unfold remove_key in H. apply filter_In in H as [H _]. now apply He.
  - apply He. revert H. generalize (length (expire now c) + 1 - MAXSIZE)%nat.
    generalize (expire now c). intros c0 n. revert c0.
    induction n as [|n IH]; intros [|x c0]; cbn [skipn In]; auto.
Qed.

(** Every link of a reachable cache holds a value that the wrapped function
    returned for the key of the link. *)
Lemma reachable_links_were_returned (c : TTLCache K V) :
  reachable K V K_eq_dec f c ->
  forall l, In l c ->
    exists srv log log',
      f (link_key l) srv log = (Ok (link_value l), log').
Proof.
  induction 1 as [|c k t_get t_set srv log _ IH]; [intros l []|].
  intros l. unfold cached, cache_getitem.
  destruct (find_link K_eq_dec k c) as [l0|] eqn:Ef.
  - destruct (live t_get l0).
    + cbn [fst snd]. rewrite in_app_iff. cbn [In].
      intros [H | [<- | []]].
      * unfold remove_key in H. apply filter_In in H as [H _]. now apply IH.
      * apply find_some in Ef as [Hin _]. now apply IH.
    + destruct (f k srv log) as [[v|e] log'] eqn:Er; cbn [fst snd];
        [|apply IH].
      intros H. apply In_cache_setitem in H as [-> | H]; [|now apply IH].
      cbn [link_key link_value]. eauto.
  - destruct (f k srv log) as [[v|e] log'] eqn:Er; cbn [fst snd];
      [|apply IH].
    intros H. apply In_cache_setitem in H as [-> | H]; [|now apply IH].
    cbn [link_key link_value]. eauto.
Qed.

(** A call that the wrapped function always rejects is never served from
    the cache: the decorated operation raises the same error, issues no
    request and leaves the cache as it was. *)
Lemma rejected_call_is_never_cached (k : K) (e : Exc) (c : TTLCache K V)
  (t_get t_set : Z) (srv : Server) (log : list Request) :
  always_rejects K V f k e ->
  reachable K V K_eq_dec f c ->
  cached K_eq_dec f t_get t_set k c srv log = (Raise e, c, log).
Proof.
  intros Hrej Hreach. unfold cached, cache_getitem.
  destruct (find_link K_eq_dec k c) as [l|] eqn:Ef.
  - apply find_some in Ef as [Hin Hk]. apply has_key_same in Hk.
    destruct (reachable_links_were_returned c Hreach l Hin)
      as (srv' & log0 & log' & Hret).
    rewrite Hk, (Hrej srv' log0) in Hret. discriminate.
  - now rewrite (Hrej srv log).
Qed.

Lemma find_link_none_Forall (k : K) (c : TTLCache K V) :
  find_link K_eq_dec k c = None
  <-> Forall (fun x => has_key K_eq_dec k x = false) c.
Proof.
  unfold find_link. induction c as [|x c IH]; cbn [find].
  - split; [constructor | reflexivity].
  - destruct (has_key K_eq_dec k x) eqn:E.
    + split; [discriminate|]. intros H. inversion H; congruence.
    + rewrite IH. split; [now constructor | intros H; now inversion H].
Qed.

Lemma Forall_filter_keeps {A : Type} (P : A -> Prop) (g : A -> bool)
  (l : list A) :
  Forall P l -> Forall P (filter g l).
Proof.
  induction 1 as [|x l Hx _ IH]; cbn [filter]; [constructor|].
  destruct (g x); [now constructor | assumption].
Qed.

Lemma Forall_skipn_keeps {A : Type} (P : A -> Prop) (n : nat) (l : list A) :
  Forall P l -> Forall P (skipn n l).
Proof.
  revert l. induction n as [|n IH]; intros l H; [assumption|].
  destruct l as [|x l]; [constructor|]. cbn [skipn]. apply IH.
  now inversion H.
Qed.

Lemma filter_shorter {A : Type} (g : A -> bool) (l : list A) :
  (length (filter g l) <= length l)%nat.
Proof.
  induction l as [|x l IH]; cbn [filter length]; [lia|].
  destruct (g x); cbn [length]; lia.
Qed.

Lemma remove_key_without (k : K) (c : TTLCache K V) :
  Forall (fun x => has_key K_eq_dec k x = false) (remove_key K_eq_dec k c).
Proof.
  unfold remove_key. induction c as [|x c IH]; cbn [filter]; [constructor|].
  destruct (has_key K_eq_dec k x) eqn:E; cbn [negb]; [assumption|].
  now constructor.
Qed.

Lemma has_key_other (k k' : K) (l : Link K V) :
  has_key K_eq_dec k l = true -> k' <> k -> has_key K_eq_dec k' l = false.
Proof.
  intros Hk Hne. apply has_key_same in Hk.
  destruct (has_key K_eq_dec k' l) eqn:E; [|reflexivity].
  apply has_key_same in E. congruence.
Qed.

Lemma holds_link_found (k : K) (l : Link K V) (n : nat) (c : TTLCache K V) :
  holds_link K V K_eq_dec k l n c -> find_link K_eq_dec k c = Some l.
Proof.
  intros (pre & post & -> & Hpre & Hl & _).
  rewrite find_link_app.
  apply find_link_none_Forall in Hpre. rewrite Hpre.
  unfold find_link. cbn [find]. now rewrite Hl.
Qed.

Lemma holds_link_more (k : K) (l : Link K V) (n m : nat) (c : TTLCache K V) :
  holds_link K V K_eq_dec k l n c -> (n <= m)%nat ->
  holds_link K V K_eq_dec k l m c.
Proof.
  intros (pre & post & Hc & Hpre & Hl & Hn) Hm.
  exists pre, post. repeat split; try assumption. lia.
Qed.

Lemma holds_link_stored (now : Z) (k : K) (v : V) (c : TTLCache K V) :
  holds_link K V K_eq_dec k (mkLink k v (now + CACHE_TTL)) 0
    (cache_setitem K_eq_dec now k v c).
Proof.
  unfold cache_setitem.
  eexists _, []. split; [reflexivity|]. split; [|split].
  - destruct (find_link K_eq_dec k (expire now c)) eqn:E.
    + apply remove_key_without.
    + apply Forall_skipn_keeps. now apply find_link_none_Forall.
  - now apply has_key_same.
  - cbn. lia.
Qed.

Lemma holds_link_read (k : K) (l : Link K V) (n : nat) (c : TTLCache K V) :
  holds_link K V K_eq_dec k l n c ->
  holds_link K V K_eq_dec k l 0 (remove_key K_eq_dec k c ++ [l]).
Proof.
  intros (pre & post & _ & _ & Hl & _).
  exists (remove_key K_eq_dec k c), []. split; [reflexivity|].
  split; [apply remove_key_without|]. split; [assumption | cbn; lia].
Qed.

Lemma holds_link_other_read (k k' : K) (l l' : Link K V) (n : nat)
  (c : TTLCache K V) :
  holds_link K V K_eq_dec k l n c -> k' <> k ->
  holds_link K V K_eq_dec k l (S n) (remove_key K_eq_dec k' c ++ [l']).
Proof.
  intros (pre & post & -> & Hpre & Hl & Hn) Hne.
  exists (remove_key K_eq_dec k' pre), (remove_key K_eq_dec k' post ++ [l']).
  split; [|split; [|split]].
  - unfold remove_key. rewrite filter_app. cbn [filter].
    rewrite (has_key_other k k' l Hl Hne). cbn [negb].
    now rewrite <- app_assoc.
  - now apply Forall_filter_keeps.
  - assumption.
  - rewrite length_app. cbn [length].
    pose proof (filter_shorter (fun x => negb (has_key K_eq_dec k' x)) post).
    unfold remove_key. lia.
Qed.

Lemma holds_link_other_stored (k k' : K) (l : Link K V) (n : nat)
  (c : TTLCache K V) (now : Z) (v' : V) :
  holds_link K V K_eq_dec k l n c -> k' <> k ->
  now < link_expires l ->
  (n + 2 <= MAXSIZE)%nat ->
  holds_link K V K_eq_dec k l (S n) (cache_setitem K_eq_dec now k' v' c).
Proof.
  intros (pre & post & -> & Hpre & Hl & Hn) Hne Hlive Hroom.
  unfold cache_setitem.
  assert (He : expire now (pre ++ l :: post)
               = expire now pre ++ l :: expire now post).
  { unfold expire. rewrite filter_app. cbn [filter]. unfold live at 2.
    apply Z.ltb_lt in Hlive. now rewrite Hlive. }
  rewrite He.
  pose proof (filter_shorter (live now) post) as Hpost.
  fold (expire now post) in Hpost.
  assert (Hpre1 : Forall (fun x => has_key K_eq_dec k x = false)
                    (expire now pre))
    by now apply Forall_filter_keeps.
  destruct (find_link K_eq_dec k' (expire now pre ++ l :: expire now post)).
  - exists (remove_key K_eq_dec k' (expire now pre)),
      (remove_key K_eq_dec k' (expire now post)
         ++ [mkLink k' v' (now + CACHE_TTL)]).
    split; [|split; [|split]].
    + unfold remove_key. rewrite filter_app. cbn [filter].
      rewrite (has_key_other k k' l Hl Hne). cbn [negb].
      now rewrite <- app_assoc.
    + now apply Forall_filter_keeps.
    + assumption.
    + rewrite length_app. cbn [length].
      pose proof (filter_shorter (fun x => negb (has_key K_eq_dec k' x))
                    (expire now post)).
      unfold remove_key. lia.
  - exists (skipn (length (expire now pre ++ l :: expire now post) + 1
                   - MAXSIZE) (expire now pre)),
      (expire now post ++ [mkLink k' v' (now + CACHE_TTL)]).
    split; [|split; [|split]].
    + rewrite skipn_app.
      replace (length (expire now pre ++ l :: expire now post) + 1 - MAXSIZE
               - length (expire now pre))%nat with 0%nat
        by (rewrite length_app; cbn [length]; lia).
      cbn [skipn]. now rewrite <- app_assoc.
    + now apply Forall_skipn_keeps.
    + assumption.
    + rewrite length_app. cbn [length]. lia.
Qed.

(** One call of the operation keeps a live link in the cache as long as
    there is room, and a call with the key of the link is served from
    it. *)
Lemma cached_keeps_link (k k' : K) (l : Link K V) (n : nat)
  (c : TTLCache K V) (t_get t_set : Z) (srv : Server) (log : list Request) :
  holds_link K V K_eq_dec k l n c ->
  (n + 2 <= MAXSIZE)%nat ->
  t_get < link_expires l -> t_set < link_expires l ->
  holds_link K V K_eq_dec k l (S n)
    (snd (fst (cached K_eq_dec f t_get t_set k' c srv log))).
Proof.
  intros Hh Hroom Hget Hset.
  destruct (K_eq_dec k' k) as [-> | Hne].
  - destruct (cache_getitem_hit t_get k c l (holds_link_found _ _ _ _ Hh) Hget)
      as [Hhit _].
    unfold cached. rewrite Hhit. cbn [fst snd].
    apply holds_link_more with (n := 0%nat); [|lia].
    now apply holds_link_read with (n := n).
  - unfold cached, cache_getitem.
    destruct (find_link K_eq_dec k' c) as [l'|].
    + destruct (live t_get l').
      * cbn [fst snd]. now apply holds_link_other_read.
      * destruct (f k' srv log) as [[v'|e] log']; cbn [fst snd].
        -- now apply holds_link_other_stored.
        -- apply holds_link_more with (n := n); [assumption | lia].
    + destruct (f k' srv log) as [[v'|e] log']; cbn [fst snd].
      * now apply holds_link_other_stored.
      * apply holds_link_more with (n := n); [assumption | lia].
Qed.

Lemma run_calls_keeps_link (k : K) (l : Link K V)
  (calls : list (K * Z * Z)) (n : nat) (c : TTLCache K V)
  (srv : Server) (log : list Request) :
  holds_link K V K_eq_dec k l n c ->
  (n + length calls < MAXSIZE)%nat ->
  Forall (before K (link_expires l)) calls ->
  holds_link K V K_eq_dec k l (n + length calls)
    (snd (fst (run_calls K_eq_dec f calls c srv log))).
Proof.
  intros Hh Hroom Hcalls. revert n c log Hh Hroom.
  induction Hcalls as [|[[k' t_get] t_set] calls [Hget Hset] _ IH];
    intros n c log Hh Hroom.
  - cbn [run_calls fst snd length]. now rewrite Nat.add_0_r.
  - cbn [length] in Hroom. cbn [fst snd] in Hget, Hset.
    pose proof (cached_keeps_link k k' l n c t_get t_set srv log Hh
                  ltac:(lia) Hget Hset) as Hstep.
    cbn [run_calls].
    destruct (cached K_eq_dec f t_get t_set k' c srv log)
      as [[r c1] log1].
    cbn [fst snd] in Hstep.
    specialize (IH (S n) c1 log1 Hstep ltac:(lia)).
    destruct (run_calls K_eq_dec f calls c1 srv log1) as [[rs c2] log2].
    cbn [fst snd length] in *.
    now replace (n + S (length calls))%nat with (S n + length calls)%nat
      by lia.
Qed.

Lemma cached_serves_repetitions : serves_repetitions K V K_eq_dec f.
Proof.
  intros k c srv log log1 t_get t_set v calls Hmiss Hrun Hlen Hcalls.
  cbn [run_calls]. unfold cached at 1. rewrite Hmiss, Hrun.
  pose proof (run_calls_keeps_link k (mkLink k v (t_set + CACHE_TTL)) calls
                0 (cache_setitem K_eq_dec t_set k v c) srv log1
                (holds_link_stored t_set k v c) ltac:(lia) Hcalls) as Hh.
  destruct (run_calls K_eq_dec f calls (cache_setitem K_eq_dec t_set k v c)
              srv log1) as [[rs c'] log'].
  cbn [fst snd] in Hh.
  intros t_get' t_set' srv' Ht.
  destruct (cache_getitem_hit t_get' k c' _ (holds_link_found _ _ _ _ Hh) Ht)
    as [Hhit _].
  eexists. unfold cached. rewrite Hhit. reflexivity.
Qed.

Lemma cached_without_key (k' : K) (k : K) (c : TTLCache K V)
  (t_get t_set : Z) (srv : Server) (log : list Request) :
  Forall (fun x => has_key K_eq_dec k' x = false) c ->
  k <> k' ->
  Forall (fun x => has_key K_eq_dec k' x = false)
    (snd (fst (cached K_eq_dec f t_get t_set k c srv log))).
Proof.
  intros Hc Hne.
  assert (Hnew : forall (v : V) t,
             has_key K_eq_dec k' (mkLink k v t) = false).
  { intros v t. apply has_key_other with (k := k); [|congruence].
    now apply has_key_same. }
  assert (Hset : forall v,
             Forall (fun x => has_key K_eq_dec k' x = false)
               (cache_setitem K_eq_dec t_set k v c)).
  { intros v. apply Forall_forall. intros x Hx.
    apply In_cache_setitem in Hx as [-> | Hx]; [apply Hnew|].
    rewrite Forall_forall in Hc. now apply Hc. }
  unfold cached, cache_getitem.
  destruct (find_link K_eq_dec k c) as [l|] eqn:Ef.
  - destruct (live t_get l).
    + cbn [fst snd]. apply Forall_app. split.
      * now apply Forall_filter_keeps.
      * constructor; [|constructor]. apply find_some in Ef as [Hin _].
        rewrite Forall_forall in Hc. now apply Hc.
    + destruct (f k srv log) as [[v|e] log']; cbn [fst snd];
        [apply Hset | assumption].
  - destruct (f k srv log) as [[v|e] log']; cbn [fst snd];
      [apply Hset | assumption].
Qed.

Lemma cached_misses_new_keys : misses_new_keys K V K_eq_dec f.
Proof.
  intros calls srv log k' t Hnew.
  assert (H : forall c log0,
             Forall (fun x => has_key K_eq_dec k' x = false) c ->
             Forall (fun x => has_key K_eq_dec k' x = false)
               (snd (fst (run_calls K_eq_dec f calls c srv log0)))).
  { induction calls as [|[[k t_get] t_set] calls IH]; intros c log0 Hc.
    - assumption.
    - cbn [map fst In] in Hnew. cbn [run_calls].
      pose proof (cached_without_key k' k c t_get t_set srv log0 Hc
                    ltac:(tauto)) as Hstep.
      destruct (cached K_eq_dec f t_get t_set k c srv log0)
        as [[r c1] log1].
      cbn [fst snd] in Hstep.
      specialize (IH ltac:(tauto) c1 log1 Hstep).
      destruct (run_calls K_eq_dec f calls c1 srv log1) as [[rs c2] log2].
      assumption. }
  specialize (H [] log (Forall_nil _)).
  destruct (run_calls K_eq_dec f calls [] srv log) as [[rs c] log'].
  cbn [fst snd] in H. apply find_link_none_Forall in H.
  unfold cache_getitem. now rewrite H.
Qed.

Lemma cached_cache_policy : cache_policy K V K_eq_dec f.
Proof.
  unfold cache_policy. split; [|split; [|split; [|split]]].
  - apply cached_serves_repetitions.
  - apply cached_memoizes_results.
  - apply cached_runs_on_miss.
  - apply cached_forgets_exceptions.
  - apply cached_misses_new_keys.
Qed.

End CacheFacts.

(** ** Event types outside the allow-list *)

(** C1 (as amended).  An event type outside the allow-list makes each of the
    four operations raise before any request is issued: the log of requests
    is unchanged, and the same holds for the decorated operations on every
    cache that calls can produce.  [latest_events] raises a [ValueError],
    whose class is not the class of upstream failures; [latest_events_4app],
    [get_events_data] and [get_event] raise a [GDACSAPIError], which is the
    class of upstream failures itself. *)
Theorem invalid_event_type_is_rejected_before_any_request :
  forall (srv : Server) (log : list Request),
    (forall event_type limit,
        py_in event_type EVENT_TYPES = false ->
        latest_events_4app event_type limit srv log
        = (Raise (GDACSAPIError MSG_INVALID_EVENT_TYPE), log))
    /\ (forall event_list alert_level date_modified country severity
               page_size page_number et,
        truthy event_list = true ->
        In et (map strip (split comma (py_str event_list))) ->
        py_in (Some et) EVENT_TYPES = false ->
        exists et',
          py_in (Some et') EVENT_TYPES = false
          /\ latest_events event_list alert_level date_modified country
               severity page_size page_number srv log
             = (Raise (ValueError (msg_invalid_event_list et')), log))
    /\ (forall event_id event_type source,
        py_in event_type EVENT_TYPES = false ->
        get_events_data event_id event_type source srv log
        = (Raise (GDACSAPIError MSG_INVALID_EVENT_TYPE), log))
    /\ (forall hg ds hx event_id event_type episode_id source_format cap_file,
        py_in event_type EVENT_TYPES = false ->
        get_event hg ds hx event_id event_type episode_id source_format
          cap_file srv log
        = (Raise (GDACSAPIError MSG_INVALID_EVENT_TYPE), log))
    /\ (forall key c t_get t_set,
        py_in (bound None (a4_event_type key)) EVENT_TYPES = false ->
        reachable _ _ LatestEvents4AppCall_eq_dec call_latest_events_4app c ->
        cached_latest_events_4app t_get t_set key c srv log
        = (Raise (GDACSAPIError MSG_INVALID_EVENT_TYPE), c, log))
    /\ (forall key c t_get t_set et,
        truthy (bound None (le_event_list key)) = true ->
        In et (map strip
                 (split comma (py_str (bound None (le_event_list key))))) ->
        py_in (Some et) EVENT_TYPES = false ->
        reachable _ _ LatestEventsCall_eq_dec call_latest_events c ->
        exists et',
          py_in (Some et') EVENT_TYPES = false
          /\ cached_latest_events t_get t_set key c srv log
             = (Raise (ValueError (msg_invalid_event_list et')), c, log))
    /\ (forall key c t_get t_set,
        py_in (ed_event_type key) EVENT_TYPES = false ->
        reachable _ _ EventsDataCall_eq_dec call_get_events_data c ->
        cached_get_events_data t_get t_set key c srv log
        = (Raise (GDACSAPIError MSG_INVALID_EVENT_TYPE), c, log))
    /\ (forall hg ds hx key c t_get t_set,
        py_in (bound None (ev_event_type key)) EVENT_TYPES = false ->
        reachable _ _ EventCall_eq_dec (call_get_event hg ds hx) c ->
        cached_get_event hg ds hx t_get t_set key c srv log
        = (Raise (GDACSAPIError MSG_INVALID_EVENT_TYPE), c, log))
    /\ (forall et, exc_class (ValueError (msg_invalid_event_list et))
                   <> upstream_failure_class)
    /\ exc_class (GDACSAPIError MSG_INVALID_EVENT_TYPE)
       = upstream_failure_class.
Proof.
  intros srv log.
  repeat match goal with |- _ /\ _ => split end.
  - intros. now apply latest_events_4app_rejects.
  - intros. eapply latest_events_rejects; eassumption.
  - intros. now apply get_events_data_rejects.
  - intros. now apply get_event_rejects.
  - intros key c t_get t_set Hbad Hreach.
    apply rejected_call_is_never_cached; [|assumption].
    intros srv' log'. now apply latest_events_4app_rejects.
  - intros key c t_get t_set et Ht Hin Hbad Hreach.
    destruct (first_invalid_event_type_complete _ _ Hin Hbad) as [et' Het'].
    exists et'. split; [now apply first_invalid_event_type_sound in Het'|].
    apply rejected_call_is_never_cached; [|assumption].
    intros srv' log'.
    unfold call_latest_events, latest_events, check_event_list.
    rewrite Ht, Het'. reflexivity.
  - intros key c t_get t_set Hbad Hreach.
    apply rejected_call_is_never_cached; [|assumption].
    intros srv' log'. now apply get_events_data_rejects.
  - intros hg ds hx key c t_get t_set Hbad Hreach.
    apply rejected_call_is_never_cached; [|assumption].
    intros srv' log'. now apply get_event_rejects.
  - discriminate.
  - reflexivity.
Qed.

Lemma invalid_event_type_is_rejected_witness :
  py_in (Some "DH") EVENT_TYPES = false
  /\ latest_events_4app (Some "DH") (Some 5) (always (feed [])) []
     = (Raise (GDACSAPIError MSG_INVALID_EVENT_TYPE), []).
Proof.
  split; [reflexivity|].
  apply (invalid_event_type_is_rejected_before_any_request
           (always (feed [])) []).
  reflexivity.
Defined.

(** C1 (as stated) fails: the error that [latest_events_4app] raises for the
    event type DH has the class [GDACSAPIError], the very class it raises
    when the upstream answers with status 500. *)
Lemma invalid_event_type_error_is_of_upstream_class :
  py_in (Some "DH") EVENT_TYPES = false
  /\ raised_class
       (result_of (latest_events_4app (Some "DH") None)
          (always (status_only 500)) [])
     = Some upstream_failure_class
  /\ latest_events_4app None None (always (status_only 500)) []
     = (Raise (GDACSAPIError MSG_RSS_UNREACHABLE),
        [mkRequest LATEST_EVENTS_URL_4APP []])
  /\ exc_class (GDACSAPIError MSG_RSS_UNREACHABLE) = upstream_failure_class.
Proof. repeat split. Qed.

(** *** Requests issued by one run of each operation *)

Lemma call_latest_events_4app_one_request :
  one_request_per_run _ _ call_latest_events_4app.
Proof.
  intros k srv log. unfold call_latest_events_4app, latest_events_4app.
  destruct (py_in _ EVENT_TYPES); [|cbn [raise]; now left].
  unfold bind, requests_get, raise, lift.
  destruct (srv log _) as [resp|]; [|eauto].
  destruct (status_code resp =? 200); [|eauto].
  destruct (res_json resp) as [body|]; [|eauto].
  destruct (getitem body "features") as [feats|]; [|eauto].
  destruct (py_iter feats) as [items|]; [|eauto].
  destruct (filter_raising _ items) as [events|]; [|eauto].
  cbn [GeoJSON_init]. eauto.
Qed.

Lemma call_latest_events_one_request :
  one_request_per_run _ _ call_latest_events.
Proof.
  intros k srv log. unfold call_latest_events, latest_events.
  unfold bind, lift, raise, requests_get.
  destruct (check_event_list _) as [[]|]; [|now left].
  destruct (check_alert_level _) as [[]|]; [|now left].
  destruct (srv log _) as [resp|]; [|eauto].
  destruct (status_code resp =? 204); [cbn [GeoJSON_init]; eauto|].
  destruct (status_code resp =? 200); [|eauto].
  destruct (features_of_response resp); eauto.
Qed.

Lemma call_get_events_by_area_one_request from_wkt :
  one_request_per_run _ _ (call_get_events_by_area from_wkt).
Proof.
  intros k srv log. unfold call_get_events_by_area, get_events_by_area.
  destruct (from_wkt _); [|now left|now left].
  unfold bind, lift, raise, requests_get.
  destruct (srv log _) as [resp|]; [|eauto].
  destruct (status_code resp =? 204); [cbn [GeoJSON_init]; eauto|].
  destruct (status_code resp =? 200); [|eauto].
  destruct (features_of_response resp); eauto.
Qed.

Lemma call_get_events_data_one_request :
  one_request_per_run _ _ call_get_events_data.
Proof.
  intros k srv log. unfold call_get_events_data, get_events_data.
  destruct (py_in _ EVENT_TYPES); [|cbn [raise]; now left].
  unfold bind, lift, raise, requests_get.
  destruct (srv log _) as [resp|]; [|eauto].
  destruct (status_code resp =? 404); cbn [negb]; [eauto|].
  destruct (status_code resp =? 200); [|eauto].
  destruct (features_of_response resp); eauto.
Qed.





(** * Further properties of the operations *)

(** ** Validation in [latest_events] *)

Lemma opt_string_eqb_eq (x y : option string) :
  opt_string_eqb x y = true <-> x = y.
Proof.
  destruct x as [a|], y as [b|]; cbn [opt_string_eqb];
    try (split; [discriminate | congruence]); [|tauto].
  rewrite String.eqb_eq. split; congruence.
Qed.

Lemma py_in_In (x : option string) (l : list (option string)) :
  py_in x l = true <-> In x l.
Proof.
  unfold py_in. rewrite existsb_exists. split.
  - intros [y [Hy He]]. apply opt_string_eqb_eq in He. now subst.
  - intros H. exists x. split; [assumption | now apply opt_string_eqb_eq].
Qed.

Lemma first_invalid_event_type_none (l : list string) :
  first_invalid_event_type l = None
  <-> Forall (fun et => In (Some et) EVENT_TYPES) l.
Proof.
  induction l as [|x l IH]; cbn [first_invalid_event_type].
  - split; [constructor | reflexivity].
  - destruct (py_in (Some x) EVENT_TYPES) eqn:E.
    + rewrite IH. apply py_in_In in E. split.
      * now constructor.
      * intros H. now inversion H.
    + split; [discriminate|]. intros H. inversion H as [|? ? Hx _]; subst.
      apply py_in_In in Hx. congruence.
Qed.

Lemma check_event_list_accepts (event_list : option string) :
  check_event_list event_list = Ok tt <-> event_list_accepted event_list.
Proof.
  unfold check_event_list, event_list_accepted.
  destruct (truthy event_list) eqn:Et.
  - destruct (first_invalid_event_type _) as [et|] eqn:Ef.
    + split; [discriminate|]. intros [H | H]; [discriminate|].
      apply first_invalid_event_type_none in H. congruence.
    + split; [|reflexivity]. intros _. right.
      now apply first_invalid_event_type_none.
  - split; [now left | reflexivity].
Qed.

Lemma check_event_list_outcome (event_list : option string) :
  check_event_list event_list = Ok tt
  \/ exists et, ~ In (Some et) EVENT_TYPES
                /\ check_event_list event_list
                   = Raise (ValueError (msg_invalid_event_list et)).
Proof.
  unfold check_event_list. destruct (truthy event_list); [|now left].
  destruct (first_invalid_event_type _) as [et|] eqn:Ef; [|now left].
  right. exists et. split; [|reflexivity].
  apply first_invalid_event_type_sound in Ef as [_ Hbad].
  intros Hin. apply py_in_In in Hin. congruence.
Qed.

Lemma check_alert_level_accepts (alert_level : option string) :
  check_alert_level alert_level = Ok tt <-> alert_level_accepted alert_level.
Proof.
  unfold check_alert_level, alert_level_accepted.
  destruct alert_level as [s|]; [|cbn; tauto].
  destruct s as [|c s]; [cbn; tauto|].
  cbn [truthy is_empty negb andb].
  destruct (py_in (Some (String c s)) ALERT_LEVELS) eqn:E; cbn [negb].
  - split; [|reflexivity]. intros _. apply py_in_In in E.
    cbn [In ALERT_LEVELS] in E. intuition congruence.
  - split; [discriminate|]. intros H.
    assert (Hin : In (Some (String c s)) ALERT_LEVELS)
      by (cbn [In ALERT_LEVELS]; intuition congruence).
    apply py_in_In in Hin. congruence.
Qed.

Lemma check_alert_level_outcome (alert_level : option string) :
  check_alert_level alert_level = Ok tt
  \/ check_alert_level alert_level
     = Raise (ValueError (msg_invalid_alert_level alert_level)).
Proof.
  unfold check_alert_level.
  destruct (truthy alert_level && negb (py_in alert_level ALERT_LEVELS));
    [now right | now left].
Qed.

Lemma log_grows (log : list Request) (r : Request) : log ++ [r] <> log.
Proof.
  intros H. apply (f_equal (@length Request)) in H.
  rewrite length_app in H. cbn in H. lia.
Qed.

(** X1.  [latest_events] issues its request exactly when both filters pass
    validation: [event_list] is [None] or empty or holds only the six event
    codes (blanks around an item are ignored), and [alert_level] is [None],
    empty or one of green, orange and red in lower case.  Otherwise it
    raises a [ValueError] and issues no request. *)
Theorem latest_events_validation :
  forall (event_list alert_level date_modified country : option string)
         (severity page_size page_number : option Z)
         (srv : Server) (log : list Request),
    (event_list_accepted event_list /\ alert_level_accepted alert_level ->
     log_after (latest_events event_list alert_level date_modified country
                  severity page_size page_number) srv log
     = log ++ [mkRequest LATEST_EVENTS_URL
                 (remove_None
                    (latest_events_params event_list alert_level
                       date_modified country severity page_size
                       page_number))])
    /\ (~ (event_list_accepted event_list
           /\ alert_level_accepted alert_level) ->
        exists msg,
          latest_events event_list alert_level date_modified country
            severity page_size page_number srv log
          = (Raise (ValueError msg), log)).
Proof.
  intros event_list alert_level date_modified country severity page_size
    page_number srv log. split.
  - intros [Hel Hal]. apply latest_events_log.
    + now apply check_event_list_accepts.
    + now apply check_alert_level_accepts.
  - intros Hno.
    destruct (check_event_list_outcome event_list) as [Hel | [et [_ Hel]]].
    + destruct (check_alert_level_outcome alert_level) as [Hal | Hal].
      * exfalso. apply Hno. split.
        -- now apply check_event_list_accepts.
        -- now apply check_alert_level_accepts.
      * eexists. unfold latest_events, bind, lift. rewrite Hel, Hal.
        reflexivity.
    + eexists. unfold latest_events, bind, lift. rewrite Hel. reflexivity.
Qed.

Lemma latest_events_validation_witness :
  log_after (latest_events (Some " EQ ,TC") (Some "red") None None None
               (Some 100) (Some 1)) (always (status_only 204)) []
  = [] ++ [mkRequest LATEST_EVENTS_URL
             [("eventlist", Some (VStr " EQ ,TC"));
              ("alertlevel", Some (VStr "red"));
              ("pagesize", Some (VInt 100)); ("pagenumber", Some (VInt 1))]].
Proof.
  apply (proj1 (latest_events_validation (Some " EQ ,TC") (Some "red") None
                  None None (Some 100) (Some 1)
                  (always (status_only 204)) [])).
  split.
  - right. repeat constructor; cbn; tauto.
  - right. right. right. right. reflexivity.
Defined.



(** ** What the list operations make of a response *)

Lemma features_of_response_list (resp : Response)
  (members : list (string * JSON)) (items : list JSON) :
  resp_json resp = Some (JObj members) ->
  assoc "features" members = Some (JArr items) ->
  features_of_response resp = Ok (mkGeoJSON items).
Proof.
  intros Hb Hf. unfold features_of_response, res_json. rewrite Hb.
  cbn [rbind getitem]. now rewrite Hf.
Qed.

Lemma latest_events_4app_run event_type limit srv log resp :
  py_in event_type EVENT_TYPES = true ->
  answers srv log (mkRequest LATEST_EVENTS_URL_4APP []) resp ->
  status_code resp = 200 ->
  latest_events_4app event_type limit srv log
  = (events_of_response event_type limit resp,
     log ++ [mkRequest LATEST_EVENTS_URL_4APP []]).
Proof.
  intros Hin Hans H200.
  unfold latest_events_4app, bind, lift, events_of_response. rewrite Hin.
  rewrite (requests_get_answer _ _ _ _ _ Hans), H200. cbn [Z.eqb Pos.eqb].
  destruct (res_json resp) as [body|]; [|reflexivity]. cbn [rbind].
  destruct (getitem body "features") as [feats|]; [|reflexivity].
  cbn [rbind].
  destruct (py_iter feats) as [items|]; [|reflexivity]. cbn [rbind].
  destruct (filter_raising (event_matches event_type) items);
    reflexivity.
Qed.

(** X3.  On status 200 with a body whose [features] member is a list,
    [latest_events], [get_events_by_area] and [get_events_data] return
    exactly that list, in the server's order: nothing is filtered or cut on
    the client, whatever [page_size] or [days] say. *)
Theorem list_operations_return_the_features_unchanged :
  forall (srv : Server) (log : list Request) (resp : Response)
         (members : list (string * JSON)) (items : list JSON),
    status_code resp = 200 ->
    resp_json resp = Some (JObj members) ->
    assoc "features" members = Some (JArr items) ->
    (forall event_list alert_level date_modified country severity page_size
            page_number,
        event_list_accepted event_list ->
        alert_level_accepted alert_level ->
        let r := mkRequest LATEST_EVENTS_URL
                   (remove_None
                      (latest_events_params event_list alert_level
                         date_modified country severity page_size
                         page_number)) in
        answers srv log r resp ->
        latest_events event_list alert_level date_modified country severity
          page_size page_number srv log
        = (Ok (mkGeoJSON items), log ++ [r]))
    /\ (forall from_wkt geometry_area days,
        from_wkt geometry_area = WktParsed ->
        let r := mkRequest EVENTS_BY_AREA_URL
                   [("geometryArea", opt_map VStr geometry_area);
                    ("days", opt_map VInt days)] in
        answers srv log r resp ->
        get_events_by_area from_wkt geometry_area days srv log
        = (Ok (mkGeoJSON items), log ++ [r]))
    /\ (forall event_id event_type source,
        py_in event_type EVENT_TYPES = true ->
        let r := mkRequest EVENTS_DATA_URL
                   (remove_None
                      [("eventid", opt_map VInt event_id);
                       ("eventtype", opt_map VStr event_type);
                       ("source", opt_map VStr source)]) in
        answers srv log r resp ->
        get_events_data event_id event_type source srv log
        = (Ok (mkGeoJSON items), log ++ [r])).
Proof.
  intros srv log resp members items H200 Hb Hf.
  pose proof (features_of_response_list resp members items Hb Hf) as Hfeat.
  split; [|split].
  - intros event_list alert_level date_modified country severity page_size
      page_number Hel Hal r Hans.
    apply check_event_list_accepts in Hel.
    apply check_alert_level_accepts in Hal.
    rewrite (latest_events_status _ _ _ _ _ _ _ _ _ _ Hel Hal Hans).
    now rewrite H200, Hfeat.
  - intros from_wkt geometry_area days Hp r Hans.
    rewrite (get_events_by_area_status _ _ _ _ _ _ Hp Hans).
    now rewrite H200, Hfeat.
  - intros event_id event_type source Hin r Hans.
    rewrite (get_events_data_status _ _ _ _ _ _ Hin Hans).
    now rewrite H200, Hfeat.
Qed.

Lemma list_operations_return_the_features_witness :
  latest_events None None None None None (Some 1) (Some 1)
    (always (feed [feature_of_type "EQ"; feature_of_type "TC"])) []
  = (Ok (mkGeoJSON [feature_of_type "EQ"; feature_of_type "TC"]),
     [] ++ [mkRequest LATEST_EVENTS_URL
              (remove_None
                 (latest_events_params None None None None None (Some 1)
                    (Some 1)))]).
Proof.
  apply (list_operations_return_the_features_unchanged
           (always (feed [feature_of_type "EQ"; feature_of_type "TC"])) []
           (feed [feature_of_type "EQ"; feature_of_type "TC"])
           [("features", JArr [feature_of_type "EQ"; feature_of_type "TC"])]
           [feature_of_type "EQ"; feature_of_type "TC"]);
    try reflexivity.
  - now left.
  - now left.
Defined.

(** X4.  A response with status 200 whose body is an object without the
    member [features] makes each of the four operations raise a [KeyError];
    a body that is no JSON at all makes each raise the decoding error of
    [res.json()].  Neither is turned into a [GDACSAPIError], and the request
    has been issued. *)
Theorem body_without_features_raises_key_error :
  forall (srv : Server) (log : list Request) (resp : Response),
    status_code resp = 200 ->
    forall e,
      (resp_json resp = None /\ e = JSONDecodeError)
      \/ (exists members, resp_json resp = Some (JObj members)
                          /\ assoc "features" members = None
                          /\ e = KeyError) ->
      (forall event_type limit,
          py_in event_type EVENT_TYPES = true ->
          let r := mkRequest LATEST_EVENTS_URL_4APP [] in
          answers srv log r resp ->
          latest_events_4app event_type limit srv log = (Raise e, log ++ [r]))
      /\ (forall event_list alert_level date_modified country severity
                 page_size page_number,
          event_list_accepted event_list ->
          alert_level_accepted alert_level ->
          let r := mkRequest LATEST_EVENTS_URL
                     (remove_None
                        (latest_events_params event_list alert_level
                           date_modified country severity page_size
                           page_number)) in
          answers srv log r resp ->
          latest_events event_list alert_level date_modified country
            severity page_size page_number srv log
          = (Raise e, log ++ [r]))
      /\ (forall from_wkt geometry_area days,
          from_wkt geometry_area = WktParsed ->
          let r := mkRequest EVENTS_BY_AREA_URL
                     [("geometryArea", opt_map VStr geometry_area);
                      ("days", opt_map VInt days)] in
          answers srv log r resp ->
          get_events_by_area from_wkt geometry_area days srv log
          = (Raise e, log ++ [r]))
      /\ (forall event_id event_type source,
          py_in event_type EVENT_TYPES = true ->
          let r := mkRequest EVENTS_DATA_URL
                     (remove_None
                        [("eventid", opt_map VInt event_id);
                         ("eventtype", opt_map VStr event_type);
                         ("source", opt_map VStr source)]) in
          answers srv log r resp ->
          get_events_data event_id event_type source srv log
          = (Raise e, log ++ [r])).
Proof.
  intros srv log resp H200 e He.
  assert (Hfeat : features_of_response resp = Raise e).
  { unfold features_of_response, res_json.
    destruct He as [[Hb ->] | (members & Hb & Hf & ->)]; rewrite Hb;
      cbn [rbind getitem]; [reflexivity | now rewrite Hf]. }
  assert (Hev : forall event_type limit,
             events_of_response event_type limit resp = Raise e).
  { intros event_type limit. unfold events_of_response, res_json.
    destruct He as [[Hb ->] | (members & Hb & Hf & ->)]; rewrite Hb;
      cbn [rbind getitem]; [reflexivity | now rewrite Hf]. }
  split; [|split; [|split]].
  - intros event_type limit Hin r Hans.
    rewrite (latest_events_4app_run _ limit _ _ _ Hin Hans H200).
    now rewrite Hev.
  - intros event_list alert_level date_modified country severity page_size
      page_number Hel Hal r Hans.
    apply check_event_list_accepts in Hel.
    apply check_alert_level_accepts in Hal.
    rewrite (latest_events_status _ _ _ _ _ _ _ _ _ _ Hel Hal Hans).
    now rewrite H200, Hfeat.
  - intros from_wkt geometry_area days Hp r Hans.
    rewrite (get_events_by_area_status _ _ _ _ _ _ Hp Hans).
    now rewrite H200, Hfeat.
  - intros event_id event_type source Hin r Hans.
    rewrite (get_events_data_status _ _ _ _ _ _ Hin Hans).
    now rewrite H200, Hfeat.
Qed.

Lemma body_without_features_witness :
  get_events_data (Some 1000132) (Some "TC") None
    (always (mkResponse 200 (Some (JObj [("message", JStr "none")])))) []
  = (Raise KeyError,
     [] ++ [mkRequest EVENTS_DATA_URL
              (remove_None
                 [("eventid", opt_map VInt (Some 1000132));
                  ("eventtype", opt_map VStr (Some "TC"));
                  ("source", opt_map VStr None)])]).
Proof.
  apply (body_without_features_raises_key_error
           (always (mkResponse 200 (Some (JObj [("message", JStr "none")]))))
           [] (mkResponse 200 (Some (JObj [("message", JStr "none")])))
           eq_refl KeyError);
    try reflexivity.
  right. exists [("message", JStr "none")]. repeat split.
Defined.

(** X5.  When [requests.get] raises because no response arrives, each of the
    four operations lets that exception through unchanged: it is not turned
    into a [GDACSAPIError], and no second attempt is made. *)
Theorem transport_failure_is_not_wrapped :
  forall (srv : Server) (log : list Request),
    (forall event_type limit,
        py_in event_type EVENT_TYPES = true ->
        let r := mkRequest LATEST_EVENTS_URL_4APP [] in
        srv log r = None ->
        latest_events_4app event_type limit srv log
        = (Raise ConnectionError, log ++ [r]))
    /\ (forall event_list alert_level date_modified country severity
               page_size page_number,
        event_list_accepted event_list ->
        alert_level_accepted alert_level ->
        let r := mkRequest LATEST_EVENTS_URL
                   (remove_None
                      (latest_events_params event_list alert_level
                         date_modified country severity page_size
                         page_number)) in
        srv log r = None ->
        latest_events event_list alert_level date_modified country severity
          page_size page_number srv log
        = (Raise ConnectionError, log ++ [r]))
    /\ (forall from_wkt geometry_area days,
        from_wkt geometry_area = WktParsed ->
        let r := mkRequest EVENTS_BY_AREA_URL
                   [("geometryArea", opt_map VStr geometry_area);
                    ("days", opt_map VInt days)] in
        srv log r = None ->
        get_events_by_area from_wkt geometry_area days srv log
        = (Raise ConnectionError, log ++ [r]))
    /\ (forall event_id event_type source,
        py_in event_type EVENT_TYPES = true ->
        let r := mkRequest EVENTS_DATA_URL
                   (remove_None
                      [("eventid", opt_map VInt event_id);
                       ("eventtype", opt_map VStr event_type);
                       ("source", opt_map VStr source)]) in
        srv log r = None ->
        get_events_data event_id event_type source srv log
        = (Raise ConnectionError, log ++ [r])).
Proof.
  intros srv log. split; [|split; [|split]].
  - intros event_type limit Hin r Hno.
    unfold latest_events_4app, bind, requests_get. rewrite Hin.
    fold r. now rewrite Hno.
  - intros event_list alert_level date_modified country severity page_size
      page_number Hel Hal r Hno.
    apply check_event_list_accepts in Hel.
    apply check_alert_level_accepts in Hal.
    unfold latest_events, bind, lift, requests_get. rewrite Hel, Hal.
    fold r. now rewrite Hno.
  - intros from_wkt geometry_area days Hp r Hno.
    unfold get_events_by_area, bind, requests_get. rewrite Hp.
    fold r. now rewrite Hno.
  - intros event_id event_type source Hin r Hno.
    unfold get_events_data, bind, requests_get. rewrite Hin.
    fold r. now rewrite Hno.
Qed.

Lemma transport_failure_witness :
  latest_events_4app (Some "EQ") (Some 5) unreachable []
  = (Raise ConnectionError, [] ++ [mkRequest LATEST_EVENTS_URL_4APP []]).
Proof.
  apply (transport_failure_is_not_wrapped unreachable []); reflexivity.
Defined.

(** ** The requests of [get_events_data] and [get_events_by_area] *)

Lemma get_events_data_log event_id event_type source srv log :
  py_in event_type EVENT_TYPES = true ->
  log_after (get_events_data event_id event_type source) srv log
  = log ++ [mkRequest EVENTS_DATA_URL
              (remove_None
                 [("eventid", opt_map VInt event_id);
                  ("eventtype", opt_map VStr event_type);
                  ("source", opt_map VStr source)])].
Proof.
  intros Hin. unfold log_after, get_events_data, bind, lift, raise.
  rewrite Hin.
  pose proof (requests_get_log EVENTS_DATA_URL
                (remove_None
                   [("eventid", opt_map VInt event_id);
                    ("eventtype", opt_map VStr event_type);
                    ("source", opt_map VStr source)]) srv log) as Hlog.
  destruct (requests_get _ _ srv log) as [[resp|e] log1]; cbn [snd] in Hlog;
    subst log1; [|reflexivity].
  destruct (status_code resp =? 404); [reflexivity|]. cbn [negb].
  destruct (status_code resp =? 200); reflexivity.
Qed.

Lemma get_events_by_area_log from_wkt geometry_area days srv log :
  from_wkt geometry_area = WktParsed ->
  log_after (get_events_by_area from_wkt geometry_area days) srv log
  = log ++ [mkRequest EVENTS_BY_AREA_URL
              [("geometryArea", opt_map VStr geometry_area);
               ("days", opt_map VInt days)]].
Proof.
  intros Hp. unfold log_after, get_events_by_area, bind, lift, raise.
  rewrite Hp.
  pose proof (requests_get_log EVENTS_BY_AREA_URL
                [("geometryArea", opt_map VStr geometry_area);
                 ("days", opt_map VInt days)] srv log) as Hlog.
  destruct (requests_get _ _ srv log) as [[resp|e] log1]; cbn [snd] in Hlog;
    subst log1; [|reflexivity].
  destruct (status_code resp =? 204); [reflexivity|].
  destruct (status_code resp =? 200); reflexivity.
Qed.

(** X6.  With an allowed event type, [get_events_data] issues one GET to the
    event-data URL, whatever the answer, and sends each of [eventid],
    [eventtype] and [source] exactly when its value is not [None]; an event
    type left at [None] passes the allow-list and is simply not sent.
    [get_events_by_area], once the geometry is parsed, issues one GET to the
    events-by-area URL and hands over both [geometryArea] and [days], the
    latter also when it is [None]: this operation does not remove [None]
    values itself. *)
Theorem requests_of_event_data_and_area :
  forall (srv : Server) (log : list Request),
    (forall event_id event_type source,
        py_in event_type EVENT_TYPES = true ->
        exists r,
          log_after (get_events_data event_id event_type source) srv log
          = log ++ [r]
          /\ req_url r = EVENTS_DATA_URL
          /\ assoc "eventid" (req_params r)
             = opt_map (fun n => Some (VInt n)) event_id
          /\ assoc "eventtype" (req_params r)
             = opt_map (fun s => Some (VStr s)) event_type
          /\ assoc "source" (req_params r)
             = opt_map (fun s => Some (VStr s)) source
          /\ (forall key v, In (key, v) (req_params r) -> v <> None))
    /\ (forall from_wkt geometry_area days,
        from_wkt geometry_area = WktParsed ->
        exists r,
          log_after (get_events_by_area from_wkt geometry_area days) srv log
          = log ++ [r]
          /\ req_url r = EVENTS_BY_AREA_URL
          /\ assoc "geometryArea" (req_params r)
             = Some (opt_map VStr geometry_area)
          /\ assoc "days" (req_params r) = Some (opt_map VInt days)).
Proof.
  intros srv log. split.
  - intros event_id event_type source Hin. eexists.
    split; [now apply get_events_data_log|]. cbn [req_url req_params].
    split; [reflexivity|].
    split; [destruct event_id, event_type, source; reflexivity|].
    split; [destruct event_id, event_type, source; reflexivity|].
    split; [destruct event_id, event_type, source; reflexivity|].
    intros key v Hv. now apply remove_None_keeps in Hv.
  - intros from_wkt geometry_area days Hp. eexists.
    split; [now apply get_events_by_area_log|]. repeat split.
Qed.

Lemma requests_of_event_data_witness :
  exists r,
    log_after (get_events_data (Some 1000132) None (Some "JTWC"))
      (always (status_only 500)) [] = [] ++ [r]
    /\ assoc "eventtype" (req_params r) = None
    /\ assoc "source" (req_params r) = Some (Some (VStr "JTWC")).
Proof.
  destruct (proj1 (requests_of_event_data_and_area
                     (always (status_only 500)) [])
              (Some 1000132) None (Some "JTWC") eq_refl)
    as (r & Hlog & _ & _ & Het & Hsrc & _).
  exists r. repeat split; assumption.
Defined.

(** ** Dispatch in [get_event] *)

Lemma allowed_format_cases (source_format : option string) :
  py_in source_format DATA_FORMATS = true ->
  source_format = None \/ source_format = Some "xml"
  \/ source_format = Some "geojson" \/ source_format = Some "shp".
Proof.
  intros H. apply py_in_In in H. cbn [In DATA_FORMATS] in H.
  intuition congruence.
Qed.

(** X7.  With an allowed event type, a source format outside the allow-list
    (so also XML or SHP in capitals) makes [get_event] raise the
    [GDACSAPIError] about the data format before any collaborator is called
    and before any request. *)
Theorem get_event_rejects_unknown_format :
  forall hg ds hx (event_id : string)
         (event_type episode_id source_format : option string)
         (cap_file : bool) (srv : Server) (log : list Request),
    py_in event_type EVENT_TYPES = true ->
    ~ In source_format DATA_FORMATS ->
    get_event hg ds hx event_id event_type episode_id source_format cap_file
      srv log
    = (Raise (GDACSAPIError MSG_INVALID_DATA_FORMAT), log).
Proof.
  intros hg ds hx event_id event_type episode_id source_format cap_file
    srv log Het Hsf.
  unfold get_event. rewrite Het.
  destruct (py_in source_format DATA_FORMATS) eqn:E; [|reflexivity].
  apply py_in_In in E. contradiction.
Qed.

Lemma get_event_rejects_unknown_format_witness :
  get_event (fun _ => raise ValidationError) download_shp
    (fun _ => raise KeyError) "1000132" (Some "TC") (Some "8") (Some "SHP")
    false (always (status_only 200)) []
  = (Raise (GDACSAPIError MSG_INVALID_DATA_FORMAT), []).
Proof.
  apply (get_event_rejects_unknown_format
           (fun _ => raise ValidationError) download_shp
           (fun _ => raise KeyError) "1000132" (Some "TC") (Some "8")
           (Some "SHP") false (always (status_only 200)) []).
  - reflexivity.
  - cbn [In DATA_FORMATS]. intuition discriminate.
Defined.

(** X8.  With an event type from the allow-list that is not [None] and an
    allowed source format, [get_event] hands exactly one path to exactly one
    collaborator and returns what that collaborator returns: the GeoJSON
    reader for geojson, the shapefile download for shp, the XML reader for
    xml and for no format at all.  The path never holds a backslash, and
    [get_event] issues no request of its own. *)
Theorem get_event_calls_exactly_one_collaborator :
  forall hg ds hx (et event_id : string)
         (episode_id source_format : option string) (cap_file : bool),
    py_in (Some et) EVENT_TYPES = true ->
    py_in source_format DATA_FORMATS = true ->
    exists path,
      contains backslash path = false
      /\ (source_format = Some "geojson" ->
          forall srv log,
            get_event hg ds hx event_id (Some et) episode_id source_format
              cap_file srv log
            = bind (hg path) (fun g => ret (GeoJSONRecord g)) srv log)
      /\ (source_format = Some "shp" ->
          forall srv log,
            get_event hg ds hx event_id (Some et) episode_id source_format
              cap_file srv log
            = bind (ds path) (fun s => ret (ShpConfirmation s)) srv log)
      /\ (source_format = None \/ source_format = Some "xml" ->
          forall srv log,
            get_event hg ds hx event_id (Some et) episode_id source_format
              cap_file srv log
            = bind (hx path) (fun x => ret (XmlRecord x)) srv log).
Proof.
  intros hg ds hx et event_id episode_id source_format cap_file Het Hsf.
  destruct (allowed_format_cases source_format Hsf)
    as [-> | [-> | [-> | ->]]].
  - eexists. split; [apply (replace_removes backslash slash); discriminate|].
    split; [intros H; discriminate H|].
    split; [intros H; discriminate H|].
    intros _ srv log.
    rewrite (get_event_xml hg ds hx event_id (Some et) episode_id None
               cap_file srv log Het (or_introl eq_refl)).
    unfold __get_xml_event, bind at 1, lift, resource_path.
    cbn [join rbind]. reflexivity.
  - eexists. split; [apply (replace_removes backslash slash); discriminate|].
    split; [intros H; discriminate H|].
    split; [intros H; discriminate H|].
    intros _ srv log.
    rewrite (get_event_xml hg ds hx event_id (Some et) episode_id
               (Some "xml") cap_file srv log Het (or_intror eq_refl)).
    unfold __get_xml_event, bind at 1, lift, resource_path.
    cbn [join rbind]. reflexivity.
  - eexists. split; [apply (replace_removes backslash slash); discriminate|].
    split; [|split; [intros H; discriminate H
                    | intros [H | H]; discriminate H]].
    intros _ srv log. rewrite get_event_geojson by assumption.
    unfold __get_geojson_event, bind at 1, lift, resource_path.
    cbn [join rbind]. reflexivity.
  - eexists. split; [apply (replace_removes backslash slash); discriminate|].
    split; [intros H; discriminate H|].
    split; [|intros [H | H]; discriminate H].
    intros _ srv log. rewrite get_event_shp by assumption.
    unfold __get_shp_event, bind at 1, lift, resource_path.
    cbn [join rbind]. reflexivity.
Qed.

Lemma get_event_calls_exactly_one_collaborator_witness :
  exists path,
    contains backslash path = false
    /\ forall srv log,
        get_event (fun _ => raise ValidationError) download_shp
          (fun _ => raise KeyError) "1012428" (Some "DR") (Some "10")
          (Some "shp") false srv log
        = bind (download_shp path) (fun s => ret (ShpConfirmation s)) srv log.
Proof.
  destruct (get_event_calls_exactly_one_collaborator
              (fun _ => raise ValidationError) download_shp
              (fun _ => raise KeyError) "DR" "1012428" (Some "10")
              (Some "shp") false eq_refl eq_refl)
    as (path & Hb & _ & Hshp & _).
  exists path. split; [exact Hb | exact (Hshp eq_refl)].
Defined.

Lemma xml_file_name_plain (event_id : string) (episode_id : option string)
  (cap_file : bool) :
  contains backslash event_id = false ->
  contains backslash (py_str episode_id) = false ->
  startswith (xml_file_name event_id episode_id cap_file) slash = false
  /\ contains backslash (xml_file_name event_id episode_id cap_file) = false.
Proof.
  intros H1 H2. unfold xml_file_name.
  destruct cap_file; [|destruct (negb (truthy episode_id))];
    (split; [reflexivity|]); rewrite !contains_app, ?H1, ?H2; reflexivity.
Qed.

Lemma xml_file_name_no_leading_slash (event_id : string)
  (episode_id : option string) (cap_file : bool) :
  startswith (xml_file_name event_id episode_id cap_file) slash = false.
Proof.
  unfold xml_file_name.
  destruct cap_file; [|destruct (negb (truthy episode_id))]; reflexivity.
Qed.





(** ** Filtering and limiting in [latest_events_4app], continued *)

Lemma event_type_of_error (event : JSON) (e : Exc) :
  event_type_of event = Raise e -> e = KeyError \/ e = TypeError.
Proof.
  unfold event_type_of, getitem.
  destruct event; cbn [rbind]; try (intros [= <-]; now right).
  destruct (assoc "properties" members) as [props|]; cbn [rbind];
    [|intros [= <-]; now left].
  destruct props; try (intros [= <-]; now right).
  destruct (assoc "eventtype" members0); [discriminate|].
  intros [= <-]. now left.
Qed.

Lemma event_matches_value (event_type : option string) (event : JSON) :
  has_event_type event ->
  event_matches event_type event
  = Ok (match event_type with
        | None => true
        | Some s => event_has_type s event
        end).
Proof.
  intros [et Het]. unfold event_matches, event_has_type. rewrite Het.
  cbn [rbind]. destruct event_type; [destruct et|]; reflexivity.
Qed.

Lemma filter_raising_well_formed (event_type : option string)
  (items : list JSON) :
  Forall has_event_type items ->
  filter_raising (event_matches event_type) items
  = Ok (match event_type with
        | None => items
        | Some s => filter (event_has_type s) items
        end).
Proof.
  induction 1 as [|x items Hx _ IH]; cbn [filter_raising filter].
  - now destruct event_type.
  - rewrite (event_matches_value event_type x Hx), IH. cbn [rbind].
    destruct event_type as [s|]; [|reflexivity].
    now destruct (event_has_type s x).
Qed.

Lemma filter_raising_malformed (event_type : option string)
  (items : list JSON) :
  Exists (fun x => ~ has_event_type x) items ->
  exists e, (e = KeyError \/ e = TypeError)
            /\ filter_raising (event_matches event_type) items = Raise e.
Proof.
  induction items as [|x items IH]; intros Hex; [inversion Hex|].
  cbn [filter_raising]. unfold event_matches at 1.
  destruct (event_type_of x) as [et|e] eqn:Ex; cbn [rbind].
  - assert (Hrest : Exists (fun x => ~ has_event_type x) items).
    { inversion Hex as [? ? Hx | ? ? Hrest]; subst; [|assumption].
      exfalso. apply Hx. now exists et. }
    destruct (IH Hrest) as (e & He & Hf). exists e. split; [assumption|].
    now rewrite Hf.
  - exists e. split; [now apply event_type_of_error in Ex | reflexivity].
Qed.

Lemma latest_events_4app_inv event_type limit srv log g log' :
  latest_events_4app event_type limit srv log = (Ok g, log') ->
  exists resp,
    py_in event_type EVENT_TYPES = true
    /\ answers srv log (mkRequest LATEST_EVENTS_URL_4APP []) resp
    /\ status_code resp = 200
    /\ events_of_response event_type limit resp = Ok g
    /\ log' = log ++ [mkRequest LATEST_EVENTS_URL_4APP []].
Proof.
  intros H.
  destruct (py_in event_type EVENT_TYPES) eqn:Hin.
  2:{ rewrite latest_events_4app_rejects in H by assumption. discriminate. }
  destruct (srv log (mkRequest LATEST_EVENTS_URL_4APP [])) as [resp|] eqn:Ha.
  2:{ unfold latest_events_4app, bind, requests_get in H.
      rewrite Hin, Ha in H. discriminate. }
  destruct (Z.eq_dec (status_code resp) 200) as [H200 | Hn].
  2:{ rewrite (latest_events_4app_failure _ limit _ _ _ Hin Ha Hn) in H.
      discriminate. }
  rewrite (latest_events_4app_run _ limit _ _ _ Hin Ha H200) in H.
  injection H as Hg Hl. exists resp. repeat split; auto.
Qed.

(** X11.  On status 200 with a feed whose items all carry
    [properties.eventtype], [latest_events_4app] returns the events of the
    wanted type in the order of the feed, cut by the limit as the slice
    [[:limit]] cuts: all of them for no limit, the first [k] of them for a
    limit [k >= 0].  Without an event type the feed is returned as it is. *)
Theorem latest_events_4app_returns_first_matching_events :
  forall (event_type : option string) (limit : option Z)
         (srv : Server) (log : list Request) (resp : Response)
         (members : list (string * JSON)) (items : list JSON),
    py_in event_type EVENT_TYPES = true ->
    answers srv log (mkRequest LATEST_EVENTS_URL_4APP []) resp ->
    status_code resp = 200 ->
    resp_json resp = Some (JObj members) ->
    assoc "features" members = Some (JArr items) ->
    Forall has_event_type items ->
    let wanted := match event_type with
                  | None => items
                  | Some s => filter (event_has_type s) items
                  end in
    latest_events_4app event_type limit srv log
    = (Ok (mkGeoJSON (slice_to wanted limit)),
       log ++ [mkRequest LATEST_EVENTS_URL_4APP []])
    /\ slice_to wanted None = wanted
    /\ (forall k, 0 <= k ->
                  slice_to wanted (Some k) = firstn (Z.to_nat k) wanted).
Proof.
  intros event_type limit srv log resp members items Hin Hans H200 Hb Hf
    Hitems wanted.
  split; [|split; [reflexivity|]].
  - rewrite (latest_events_4app_run _ limit _ _ _ Hin Hans H200).
    unfold events_of_response, res_json. rewrite Hb. cbn [rbind getitem].
    rewrite Hf. cbn [rbind py_iter].
    rewrite (filter_raising_well_formed event_type items Hitems).
    reflexivity.
  - intros k Hk. unfold slice_to. apply Z.leb_le in Hk. now rewrite Hk.
Qed.

Lemma latest_events_4app_returns_first_matching_witness :
  latest_events_4app (Some "EQ") (Some 2)
    (always (feed [feature_of_type "EQ"; feature_of_type "TC";
                   feature_of_type "EQ"; feature_of_type "EQ"])) []
  = (Ok (mkGeoJSON [feature_of_type "EQ"; feature_of_type "EQ"]),
     [] ++ [mkRequest LATEST_EVENTS_URL_4APP []]).
Proof.
  apply (latest_events_4app_returns_first_matching_events (Some "EQ") (Some 2)
           (always (feed [feature_of_type "EQ"; feature_of_type "TC";
                          feature_of_type "EQ"; feature_of_type "EQ"])) []
           (feed [feature_of_type "EQ"; feature_of_type "TC";
                  feature_of_type "EQ"; feature_of_type "EQ"])
           [("features",
             JArr [feature_of_type "EQ"; feature_of_type "TC";
                   feature_of_type "EQ"; feature_of_type "EQ"])]
           [feature_of_type "EQ"; feature_of_type "TC";
            feature_of_type "EQ"; feature_of_type "EQ"]);
    try reflexivity.
  repeat constructor; eexists; reflexivity.
Defined.

(** X12.  The limit only cuts: whenever the call without a limit returns a
    collection for some response, the call with a limit returns, for the
    same response, the slice of that collection (its first [k] features for
    [k >= 0]) and issues the same single request. *)
Theorem limit_cuts_the_unlimited_result :
  forall (event_type : option string) (limit : option Z)
         (srv : Server) (log log' : list Request) (g : GeoJSON),
    latest_events_4app event_type None srv log = (Ok g, log') ->
    latest_events_4app event_type limit srv log
    = (Ok (mkGeoJSON (slice_to (features g) limit)), log')
    /\ (forall k, limit = Some k -> 0 <= k ->
                  slice_to (features g) limit
                  = firstn (Z.to_nat k) (features g)).
Proof.
  intros event_type limit srv log log' g H.
  destruct (latest_events_4app_inv _ _ _ _ _ _ H)
    as (resp & Hin & Hans & H200 & Hev & ->).
  split.
  - rewrite (latest_events_4app_run _ limit _ _ _ Hin Hans H200).
    f_equal. revert Hev. unfold events_of_response.
    destruct (res_json resp) as [body|]; cbn [rbind]; [|discriminate].
    destruct (getitem body "features") as [feats|]; cbn [rbind];
      [|discriminate].
    destruct (py_iter feats) as [items|]; cbn [rbind]; [|discriminate].
    destruct (filter_raising (event_matches event_type) items) as [events|];
      cbn [rbind]; [|discriminate].
    cbn [GeoJSON_init json_loads_dumps slice_to]. intros [= <-]. reflexivity.
  - intros k -> Hk. unfold slice_to. apply Z.leb_le in Hk. now rewrite Hk.
Qed.

Lemma limit_cuts_the_unlimited_result_witness :
  latest_events_4app None (Some 1)
    (always (feed [feature_of_type "EQ"; feature_of_type "TC"])) []
  = (Ok (mkGeoJSON
           (slice_to
              (features (mkGeoJSON [feature_of_type "EQ";
                                    feature_of_type "TC"])) (Some 1))),
     [mkRequest LATEST_EVENTS_URL_4APP []]).
Proof.
  apply (limit_cuts_the_unlimited_result None (Some 1)
           (always (feed [feature_of_type "EQ"; feature_of_type "TC"])) []
           [mkRequest LATEST_EVENTS_URL_4APP []]
           (mkGeoJSON [feature_of_type "EQ"; feature_of_type "TC"])).
  reflexivity.
Defined.

(** X13.  One item of the feed without [properties.eventtype] makes the
    whole call fail: [latest_events_4app] raises a [KeyError] or a
    [TypeError] after its request, for every allowed event type (also for
    none) and for every limit (also when the item lies beyond the limit). *)
Theorem one_malformed_event_fails_the_whole_call :
  forall (event_type : option string) (limit : option Z)
         (srv : Server) (log : list Request) (resp : Response)
         (members : list (string * JSON)) (items : list JSON),
    py_in event_type EVENT_TYPES = true ->
    answers srv log (mkRequest LATEST_EVENTS_URL_4APP []) resp ->
    status_code resp = 200 ->
    resp_json resp = Some (JObj members) ->
    assoc "features" members = Some (JArr items) ->
    Exists (fun x => ~ has_event_type x) items ->
    exists e,
      (e = KeyError \/ e = TypeError)
      /\ latest_events_4app event_type limit srv log
         = (Raise e, log ++ [mkRequest LATEST_EVENTS_URL_4APP []]).
Proof.
  intros event_type limit srv log resp members items Hin Hans H200 Hb Hf Hex.
  destruct (filter_raising_malformed event_type items Hex) as (e & He & Hr).
  exists e. split; [assumption|].
  rewrite (latest_events_4app_run _ limit _ _ _ Hin Hans H200).
  unfold events_of_response, res_json. rewrite Hb. cbn [rbind getitem].
  rewrite Hf. cbn [rbind py_iter]. now rewrite Hr.
Qed.

Lemma one_malformed_event_witness :
  exists e,
    (e = KeyError \/ e = TypeError)
    /\ latest_events_4app None (Some 1)
         (always (feed [feature_of_type "EQ"; JObj [("properties", JObj [])]]))
         []
       = (Raise e, [] ++ [mkRequest LATEST_EVENTS_URL_4APP []]).
Proof.
  apply (one_malformed_event_fails_the_whole_call None (Some 1)
           (always (feed [feature_of_type "EQ"; JObj [("properties", JObj [])]]))
           [] (feed [feature_of_type "EQ"; JObj [("properties", JObj [])]])
           [("features",
             JArr [feature_of_type "EQ"; JObj [("properties", JObj [])]])]
           [feature_of_type "EQ"; JObj [("properties", JObj [])]]);
    try reflexivity.
  apply Exists_cons_tl. apply Exists_cons_hd.
  intros [et Het]. discriminate Het.
Defined.
